(** * TOD4 workflow dashboard: the process model builder and the status store

    Shallow embedding of [src/app.py] ([parse_step], [load_data],
    [process_steps], [extract_days], [calculate_total_days]) and of the
    checklist functions of [src/features.py] ([save_checklist_status],
    [load_checklist_status], [init_checklist_status], [get_status_label],
    [calculate_overall_progress]).

    Conventions of the embedding:
    - a Python [str] is the list of its code points;
    - a Python [int] is a [Z];
    - a table cell is [None] for a missing value (pandas NaN) and otherwise
      [Some s], [s] being the text [str(cell)] gives;
    - a Python [dict] is an association list in insertion order without
      repeated keys; assignment to a present key keeps its position;
    - the Unicode character database of the Python runtime ([str.upper],
      [str.lower], [str.isspace], the decimal digits behind [\d] and
      [int()]) is an interface, [UnicodeDB]; general theorems hold for every
      implementation of it, examples are evaluated in [latin_db];
    - the three regular expressions are written out as matchers that make
      the choices of the backtracking engine in its order (greedy first);
    - the [StepNum] column holds [int]s; pandas stores them as floats of the
      same value when the column has missing values, which changes the text
      of a number ([1.0]) and nothing else here;
    - [checklist_status.json] is held as the JSON value it contains, the text
      layer of [json.dump] and [json.load] is not modelled;
    - the floats of [calculate_overall_progress] are exact binary64 values. *)

From Stdlib Require Import List ZArith NArith Bool Lia Ascii String.
From Stdlib Require Import DecimalString DecimalZ.
From Stdlib Require Import Sorting.Sorted Sorting.Permutation.
Import ListNotations.

Set Implicit Arguments.

Local Open Scope Z_scope.

(** ** Strings *)

Definition char := N.
Definition pystr := list char.

(** Decoding of the UTF-8 bytes of a literal into code points, so that
    literals can be written as in the source. *)
Fixpoint utf8 (bs : list N) : pystr :=
  match bs with
  | [] => []
  | b :: r =>
      if (b <? 128)%N then b :: utf8 r
      else
        match r with
        | [] => []
        | b2 :: r2 =>
            if (b <? 224)%N
            then (N.lor (N.shiftl (N.land b 31) 6) (N.land b2 63)) :: utf8 r2
            else
              match r2 with
              | [] => []
              | b3 :: r3 =>
                  if (b <? 240)%N
                  then (N.lor (N.shiftl (N.land b 15) 12)
                          (N.lor (N.shiftl (N.land b2 63) 6) (N.land b3 63)))
                         :: utf8 r3
                  else
                    match r3 with
                    | [] => []
                    | b4 :: r4 =>
                        (N.lor (N.shiftl (N.land b 7) 18)
                           (N.lor (N.shiftl (N.land b2 63) 12)
                              (N.lor (N.shiftl (N.land b3 63) 6) (N.land b4 63))))
                          :: utf8 r4
                    end
              end
        end
  end.

Definition lit (s : string) : pystr :=
  utf8 (map N_of_ascii (list_ascii_of_string s)).

Definition str_eqb (a b : pystr) : bool :=
  if list_eq_dec N.eq_dec a b then true else false.

(** [str(n)] for an [int]. *)
Definition str_of_int (n : Z) : pystr :=
  map N_of_ascii (list_ascii_of_string (NilZero.string_of_int (Z.to_int n))).

(** [p + rest == s]: the rest of [s] after the prefix [p]. *)
Fixpoint strip_prefix (p s : pystr) : option pystr :=
  match p, s with
  | [], _ => Some s
  | _ :: _, [] => None
  | a :: p', b :: s' => if (a =? b)%N then strip_prefix p' s' else None
  end.

(** [p in s] *)
Fixpoint contains (p s : pystr) : bool :=
  match strip_prefix p s with
  | Some _ => true
  | None => match s with [] => false | _ :: s' => contains p s' end
  end.

(** Longest prefix whose characters satisfy [f], and what follows it. *)
Fixpoint span (f : char -> bool) (s : pystr) : pystr * pystr :=
  match s with
  | [] => ([], [])
  | c :: s' =>
      if f c then let '(a, b) := span f s' in (c :: a, b) else ([], s)
  end.

(** ** The character database of the runtime *)

Class UnicodeDB := {
  isspace : char -> bool;
  isdecimal : char -> bool;
  todecimal : char -> Z;
  upper : pystr -> pystr;
  lower : pystr -> pystr
}.

Section Text.
Context {U : UnicodeDB}.

Fixpoint lstrip (s : pystr) : pystr :=
  match s with
  | [] => []
  | c :: s' => if isspace c then lstrip s' else s
  end.

Definition rstrip (s : pystr) : pystr := rev (lstrip (rev s)).

(** [s.strip()] *)
Definition strip (s : pystr) : pystr := rstrip (lstrip s).

(** [s.split()]: the maximal runs of non-space characters; [w] holds the
    run being read, last character first. *)
Fixpoint split_from (w s : pystr) : list pystr :=
  match s with
  | [] => match w with [] => [] | _ => [rev w] end
  | c :: s' =>
      if isspace c
      then match w with [] => split_from [] s' | _ => rev w :: split_from [] s' end
      else split_from (c :: w) s'
  end.

Definition split (s : pystr) : list pystr := split_from [] s.

(** [sep.join(l)] *)
Fixpoint join (sep : pystr) (l : list pystr) : pystr :=
  match l with
  | [] => []
  | [w] => w
  | w :: l' => w ++ sep ++ join sep l'
  end.

(** [' '.join(s.split())] *)
Definition collapse (s : pystr) : pystr := join [32%N] (split s).

(** [int(ds)] on a run of decimal digits. *)
Definition int (ds : pystr) : Z :=
  fold_left (fun acc c => acc * 10 + todecimal c) ds 0.

(** The tail [(\d+)] of a pattern: the longest run of digits, at least one. *)
Definition digits1 (s : pystr) : option (pystr * pystr) :=
  match span isdecimal s with
  | ([], _) => None
  | (ds, r) => Some (ds, r)
  end.

End Text.

(** ** Literals of the source *)

Definition BUOC : pystr := Eval cbv in lit "BƯỚC".
Definition NGAY : pystr := Eval cbv in lit "ngày".
Definition ch_B : char := 66%N.
Definition ch_dot : char := 46%N.
Definition ch_space : char := 32%N.
Definition ch_underscore : char := 95%N.

Definition not_started : pystr := Eval cbv in lit "not_started".
Definition in_progress : pystr := Eval cbv in lit "in_progress".
Definition completed : pystr := Eval cbv in lit "completed".

(** ** [load_data]: classification of the code cell ([src/app.py], 102-150) *)

(** The values of the [Level] column: ['step'], or ['sub' + str(k)]. *)
Inductive level :=
| LStep
| LSub (k : nat).

Definition level_eqb (a b : level) : bool :=
  match a, b with
  | LStep, LStep => true
  | LSub j, LSub k => Nat.eqb j k
  | _, _ => false
  end.

Section Parse.
Context {U : UnicodeDB}.

(** [\s*(\d+)]: the greedy [\s*] gives a character back when what follows
    does not match. *)
Fixpoint spaces_digits (s : pystr) : option pystr :=
  match s with
  | [] => None
  | c :: s' =>
      if isspace c
      then match spaces_digits s' with
           | Some g => Some g
           | None => option_map fst (digits1 s)
           end
      else option_map fst (digits1 s)
  end.

(** [re.search(r'BƯỚC\s*(\d+)', s)]: group 1 of the leftmost match. *)
Fixpoint search_header (s : pystr) : option pystr :=
  let here := match strip_prefix BUOC s with
              | Some r => spaces_digits r
              | None => None
              end in
  match here with
  | Some g => Some g
  | None => match s with [] => None | _ :: s' => search_header s' end
  end.

(** An optional group [(?:\.(\d+))?] tried at [s]: its digits and the rest. *)
Definition dot_group (s : pystr) : option (pystr * pystr) :=
  match s with
  | c :: s' => if (c =? ch_dot)%N then digits1 s' else None
  | [] => None
  end.

(** [re.match(r'B(\d+)(?:\.(\d+))?(?:\.(\d+))?', s)]: groups 1, 2 and 3.
    Everything after group 1 is optional, so no choice is ever undone. *)
Definition match_sub (s : pystr) : option (pystr * option pystr * option pystr) :=
  match s with
  | c :: s' =>
      if (c =? ch_B)%N then
        match digits1 s' with
        | None => None
        | Some (g1, r1) =>
            match dot_group r1 with
            | Some (g2, r2) =>
                match dot_group r2 with
                | Some (g3, _) => Some (g1, Some g2, Some g3)
                | None => Some (g1, Some g2, None)
                end
            | None =>
                match dot_group r1 with
                | Some (g3, _) => Some (g1, None, Some g3)
                | None => Some (g1, None, None)
                end
            end
        end
      else None
  | [] => None
  end.

Definition startswith_B (s : pystr) : bool :=
  match s with
  | c :: _ => (c =? ch_B)%N
  | [] => false
  end.

Definition is_not_None {A} (x : option A) : bool :=
  match x with Some _ => true | None => false end.

(** [parse_step]: the triple (step number, level, sub numbers). *)
Definition parse_step (stt : option pystr)
  : option Z * option level * option (option Z * option Z) :=
  match stt with
  | None => (None, None, None)
  | Some s =>
      let stt_str := upper (strip s) in
      if contains BUOC stt_str then
        match search_header stt_str with
        | Some g => (Some (int g), Some LStep, None)
        | None => (None, None, None)
        end
      else if startswith_B stt_str then
        match match_sub stt_str with
        | Some (g1, g2, g3) =>
            let step_num := int g1 in
            let sub1 := option_map int g2 in
            let sub2 := option_map int g3 in
            let lv := LSub (List.length (filter is_not_None [sub1; sub2])) in
            (Some step_num, Some lv, Some (sub1, sub2))
        | None => (None, None, None)
        end
      else (None, None, None)
  end.

End Parse.

(** A row as read from the table: the code cell and six content cells. *)
Record RawRow := {
  raw_STT : option pystr;
  raw_NoiDung : option pystr;
  raw_DonViThucHien : option pystr;
  raw_CanCu : option pystr;
  raw_ThoiGian : option pystr;
  raw_CanCuTienDo : option pystr;
  raw_GhiChu : option pystr
}.

(** A row of the data frame [load_data] returns: the seven cells and the
    three columns computed from the code cell. *)
Record Row := {
  STT : option pystr;
  NoiDung : option pystr;
  DonViThucHien : option pystr;
  CanCu : option pystr;
  ThoiGian : option pystr;
  CanCuTienDo : option pystr;
  GhiChu : option pystr;
  StepNum : option Z;
  Level : option level;
  SubStep : option (option Z * option Z)
}.

Section Load.
Context {U : UnicodeDB}.

(** [df['STT'].notna()] and [df['STT'].astype(str).str.strip() != ''] *)
Definition has_code (r : RawRow) : bool :=
  match raw_STT r with
  | None => false
  | Some s => negb (str_eqb (strip s) [])
  end.

Definition add_columns (r : RawRow) : Row :=
  let '(n, lv, sub) := parse_step (raw_STT r) in
  {| STT := raw_STT r; NoiDung := raw_NoiDung r;
     DonViThucHien := raw_DonViThucHien r; CanCu := raw_CanCu r;
     ThoiGian := raw_ThoiGian r; CanCuTienDo := raw_CanCuTienDo r;
     GhiChu := raw_GhiChu r;
     StepNum := n; Level := lv; SubStep := sub |}.

Definition load_data (csv : list RawRow) : list Row :=
  map add_columns (filter has_code csv).

End Load.

(** ** Dictionaries *)

Section Dict.
Variables (K V : Type) (eqb : K -> K -> bool).

Definition dict := list (K * V).

(** [d.get(k)] *)
Fixpoint dict_get (k : K) (d : dict) : option V :=
  match d with
  | [] => None
  | (k', v) :: d' => if eqb k k' then Some v else dict_get k d'
  end.

(** [d[k] = v] *)
Fixpoint dict_set (k : K) (v : V) (d : dict) : dict :=
  match d with
  | [] => [(k, v)]
  | (k', v') :: d' =>
      if eqb k k' then (k', v) :: d' else (k', v') :: dict_set k v d'
  end.

(** [k in d] *)
Definition dict_mem (k : K) (d : dict) : bool :=
  match dict_get k d with Some _ => true | None => false end.

Definition dict_keys (d : dict) : list K := map fst d.
Definition dict_values (d : dict) : list V := map snd d.

End Dict.

Arguments dict_get {K V} eqb k d.
Arguments dict_set {K V} eqb k v d.
Arguments dict_mem {K V} eqb k d.
Arguments dict_keys {K V} d.
Arguments dict_values {K V} d.

(** ** [process_steps] ([src/app.py], 152-189) *)

Record SubStepInfo := {
  code : pystr;
  content : pystr;
  don_vi : pystr;
  sub_can_cu : pystr;
  thoi_gian : pystr;
  sub_can_cu_tien_do : pystr;
  ghi_chu : pystr;
  sub_level : level
}.

Record StepData := {
  title : pystr;
  can_cu : pystr;
  can_cu_tien_do : pystr;
  substeps : list SubStepInfo
}.

Definition Steps := dict Z StepData.

(** The value of a Python variable holding [None] or an [int], when it is
    true in a condition. *)
Definition truthy (v : option Z) : option Z :=
  match v with
  | Some n => if n =? 0 then None else Some n
  | None => None
  end.

(** [a == b] on two such variables. *)
Definition opt_int_eqb (a b : option Z) : bool :=
  match a, b with
  | Some x, Some y => x =? y
  | None, None => true
  | _, _ => false
  end.

Definition is_step (lv : option level) : bool :=
  match lv with Some LStep => true | _ => false end.

Section Process.
Context {U : UnicodeDB}.

(** [str(cell)]; a missing cell prints as [nan]. *)
Definition str_cell (cell : option pystr) : pystr :=
  match cell with
  | Some s => s
  | None => lit "nan"
  end.

(** [str(cell).strip() if pd.notna(cell) else ''] *)
Definition stripped (cell : option pystr) : pystr :=
  match cell with
  | Some s => strip s
  | None => []
  end.

Definition header_title (row : Row) (step_num : Z) : pystr :=
  let title := match NoiDung row with
               | Some s => strip s
               | None => BUOC ++ [ch_space] ++ str_of_int step_num
               end in
  collapse title.

Definition header_data (row : Row) (step_num : Z) : StepData :=
  {| title := header_title row step_num;
     can_cu := stripped (CanCu row);
     can_cu_tien_do := stripped (CanCuTienDo row);
     substeps := [] |}.

Definition substep_info (row : Row) (lv : level) : SubStepInfo :=
  {| code := strip (str_cell (STT row));
     content := collapse (stripped (NoiDung row));
     don_vi := stripped (DonViThucHien row);
     sub_can_cu := stripped (CanCu row);
     thoi_gian := stripped (ThoiGian row);
     sub_can_cu_tien_do := stripped (CanCuTienDo row);
     ghi_chu := stripped (GhiChu row);
     sub_level := lv |}.

Definition append_substep (sd : StepData) (info : SubStepInfo) : StepData :=
  {| title := title sd; can_cu := can_cu sd;
     can_cu_tien_do := can_cu_tien_do sd;
     substeps := substeps sd ++ [info] |}.

(** One iteration of the loop, on the pair ([steps], [current_step]).
    [None] is the [KeyError] of [steps[current_step]]. *)
Definition process_row (st : Steps * option Z) (row : Row)
  : option (Steps * option Z) :=
  let '(steps, current_step) := st in
  match is_step (Level row), truthy (StepNum row) with
  | true, Some step_num =>
      Some (dict_set Z.eqb step_num (header_data row step_num) steps,
            Some step_num)
  | _, _ =>
      match Level row, truthy current_step with
      | Some lv, Some cur =>
          if opt_int_eqb (StepNum row) current_step then
            match dict_get Z.eqb cur steps with
            | Some sd =>
                Some (dict_set Z.eqb cur (append_substep sd (substep_info row lv))
                        steps,
                      current_step)
            | None => None
            end
          else Some st
      | _, _ => Some st
      end
  end.

Fixpoint process_rows (st : Steps * option Z) (df : list Row)
  : option (Steps * option Z) :=
  match df with
  | [] => Some st
  | row :: df' =>
      match process_row st row with
      | Some st' => process_rows st' df'
      | None => None
      end
  end.

Definition process_steps (df : list Row) : option Steps :=
  option_map fst (process_rows ([], None) df).

(** ** [extract_days] and [calculate_total_days] ([src/app.py], 191-212) *)

(** [\s*ngày] at the start of [s]. *)
Fixpoint spaces_ngay (s : pystr) : bool :=
  match s with
  | [] => is_not_None (strip_prefix NGAY s)
  | c :: s' =>
      if isspace c
      then (if spaces_ngay s' then true else is_not_None (strip_prefix NGAY s))
      else is_not_None (strip_prefix NGAY s)
  end.

(** [(\d+)\s*ngày] at the start of [s]: group 1.  The greedy [\d+] first
    tries to take one more digit. *)
Fixpoint digits_spaces_ngay (s : pystr) : option pystr :=
  match s with
  | [] => None
  | c :: s' =>
      if isdecimal c then
        match digits_spaces_ngay s' with
        | Some g => Some (c :: g)
        | None => if spaces_ngay s' then Some [c] else None
        end
      else None
  end.

(** [re.findall(r'(\d+)\s*ngày', s)]: its first element, when there is one. *)
Fixpoint findall_first (s : pystr) : option pystr :=
  match digits_spaces_ngay s with
  | Some g => Some g
  | None => match s with [] => None | _ :: s' => findall_first s' end
  end.

Definition extract_days (text : option pystr) : Z :=
  match text with
  | None => 0
  | Some [] => 0
  | Some t =>
      match findall_first (lower t) with
      | Some g => int g
      | None => 0
      end
  end.

Definition step_total (step_data : StepData) : Z :=
  fold_left (fun total substep => total + extract_days (Some (thoi_gian substep)))
    (substeps step_data) 0.

Definition calculate_total_days (steps : Steps) : dict Z Z :=
  fold_left (fun step_days item => dict_set Z.eqb (fst item) (step_total (snd item)) step_days)
    steps [].

End Process.

(** ** The status store ([src/features.py], 1385-1473) *)

(** Keys of the status dictionaries: step numbers put there by
    [init_checklist_status] are [int]s, keys read back from the file and
    sub-step keys are [str]s.  An [int] is never equal to a [str]. *)
Inductive pykey :=
| KInt (n : Z)
| KStr (s : pystr).

Definition pykey_eqb (a b : pykey) : bool :=
  match a, b with
  | KInt x, KInt y => x =? y
  | KStr x, KStr y => str_eqb x y
  | _, _ => false
  end.

(** [{'status': ..., 'notes': ...}] *)
Record StatusEntry := {
  status : pystr;
  notes : pystr
}.

Definition StatusMap := dict pykey StatusEntry.

(** The three keys of [st.session_state] the checklist uses; [None] is a key
    that is not in the session state. *)
Record Session := {
  step_status : option StatusMap;
  substep_status : option StatusMap;
  checklist_loaded : bool
}.

(** A JSON object of entries as it stands in the file: its members in
    textual order; a name may occur more than once. *)
Definition JsonObject := list (pystr * StatusEntry).

Record StatusData := {
  json_step_status : option JsonObject;
  json_substep_status : option JsonObject
}.

(** [checklist_status.json]: absent, not readable as a JSON object, or a
    JSON object with the two collections. *)
Inductive StatusFile :=
| NoFile
| BadFile
| JsonFile (data : StatusData).

Record World := {
  session : Session;
  file : StatusFile
}.

(** [json.dump] writes every key as a string. *)
Definition json_key (k : pykey) : pystr :=
  match k with
  | KInt n => str_of_int n
  | KStr s => s
  end.

Definition json_dump (d : StatusMap) : JsonObject :=
  map (fun item => (json_key (fst item), snd item)) d.

(** [json.load] builds the dictionary member by member. *)
Definition json_load (o : JsonObject) : StatusMap :=
  fold_left (fun d item => dict_set pykey_eqb (KStr (fst item)) (snd item) d) o [].

Definition get_or_empty {A} (x : option (list A)) : list A :=
  match x with Some l => l | None => [] end.

(** [save_checklist_status]; [writable = false] is the branch where opening
    or writing the file raises. *)
Definition save_checklist_status (writable : bool) (w : World) : World * bool :=
  let status_data :=
    {| json_step_status := Some (json_dump (get_or_empty (step_status (session w))));
       json_substep_status := Some (json_dump (get_or_empty (substep_status (session w)))) |} in
  if writable
  then ({| session := session w; file := JsonFile status_data |}, true)
  else (w, false).

Definition load_checklist_status (f : StatusFile) : StatusMap * StatusMap :=
  match f with
  | JsonFile status_data =>
      (json_load (get_or_empty (json_step_status status_data)),
       json_load (get_or_empty (json_substep_status status_data)))
  | BadFile => ([], [])
  | NoFile => ([], [])
  end.

Definition default_entry : StatusEntry :=
  {| status := not_started; notes := [] |}.

(** [if k not in d: d[k] = {'status': 'not_started', 'notes': ''}] *)
Definition set_default (k : pykey) (d : StatusMap) : StatusMap :=
  if dict_mem pykey_eqb k d then d else dict_set pykey_eqb k default_entry d.

(** [f"{step_num}_{substep['code']}"] *)
Definition substep_key (step_num : Z) (substep : SubStepInfo) : pykey :=
  KStr (str_of_int step_num ++ [ch_underscore] ++ code substep).

Definition init_step_status (steps : Steps) (d : StatusMap) : StatusMap :=
  fold_left (fun d step_num => set_default (KInt step_num) d) (dict_keys steps) d.

Definition init_substep_status (steps : Steps) (d : StatusMap) : StatusMap :=
  fold_left (fun d item =>
               fold_left (fun d substep => set_default (substep_key (fst item) substep) d)
                 (substeps (snd item)) d)
    steps d.

Definition init_checklist_status (writable : bool) (steps : Steps) (w : World) : World :=
  let s0 := session w in
  let s1 :=
    if checklist_loaded s0 then s0
    else let '(step_status_from_file, substep_status_from_file) :=
           load_checklist_status (file w) in
         {| step_status := Some step_status_from_file;
            substep_status := Some substep_status_from_file;
            checklist_loaded := true |} in
  let s2 := {| step_status := Some (init_step_status steps (get_or_empty (step_status s1)));
               substep_status := substep_status s1;
               checklist_loaded := checklist_loaded s1 |} in
  let s3 := {| step_status := step_status s2;
               substep_status := Some (init_substep_status steps (get_or_empty (substep_status s2)));
               checklist_loaded := checklist_loaded s2 |} in
  fst (save_checklist_status writable {| session := s3; file := file w |}).

Definition label_not_started : pystr := Eval cbv in lit "⏸️ Chưa thực hiện".
Definition label_in_progress : pystr := Eval cbv in lit "🔄 Đang thực hiện".
Definition label_completed : pystr := Eval cbv in lit "✅ Hoàn thành".

Definition status_map : dict pystr pystr :=
  [(not_started, label_not_started);
   (in_progress, label_in_progress);
   (completed, label_completed)].

(** [status_map.get(status, status)] *)
Definition get_status_label (st : pystr) : pystr :=
  match dict_get str_eqb st status_map with
  | Some l => l
  | None => st
  end.

(** *** Floats

    A non-negative binary64 value is [mant * 2 ^ expo] with [mant = 0] or
    [2^52 <= mant <= 2^53].  The exponent range is not modelled: the
    operands below are lengths of lists. *)
Record float := {
  mant : Z;
  expo : Z
}.

(** The ratio [p / q] ([0 <= p], [0 < q]) rounded to nearest, ties to even. *)
Definition float_of_ratio (p q : Z) : float :=
  if p =? 0 then {| mant := 0; expo := 0 |}
  else
    let scaled s := if 0 <=? s then (p * 2 ^ s, q) else (p, q * 2 ^ (- s)) in
    let s0 := 52 - (Z.log2 p - Z.log2 q) in
    let s := if fst (scaled s0) / snd (scaled s0) <? 2 ^ 52 then s0 + 1 else s0 in
    let n := fst (scaled s) in
    let d := snd (scaled s) in
    let m := n / d in
    let r := n mod d in
    let up := (d <? 2 * r) || ((d =? 2 * r) && Z.odd m) in
    {| mant := if up then m + 1 else m; expo := - s |}.

(** [a / b] on two [int]s *)
Definition true_div (a b : Z) : float := float_of_ratio a b.

(** [x * k] for a float [x] and a positive [int] [k] that is a float exactly *)
Definition float_mul_int (x : float) (k : Z) : float :=
  if 0 <=? expo x
  then float_of_ratio (mant x * k * 2 ^ expo x) 1
  else float_of_ratio (mant x * k) (2 ^ (- expo x)).

(** [int(x)] *)
Definition int_of_float (x : float) : Z :=
  if 0 <=? expo x then mant x * 2 ^ expo x else mant x / 2 ^ (- expo x).

Definition is_completed (e : StatusEntry) : bool := str_eqb (status e) completed.

Definition calculate_overall_progress (steps : Steps) (s : Session) : Z :=
  match step_status s with
  | None => 0
  | Some d =>
      let total_steps := Z.of_nat (List.length steps) in
      if total_steps =? 0 then 0
      else
        let completed_steps :=
          fold_left (fun acc e => if is_completed e then acc + 1 else acc)
            (dict_values d) 0 in
        int_of_float (float_mul_int (true_div completed_steps total_steps) 100)
  end.

(** ** A character database for Basic Latin and Vietnamese text

    [isspace] is the whitespace set of the runtime; digits are the ASCII
    digits; case mapping covers Basic Latin, Latin-1 and the Vietnamese
    letters, and leaves every other character unchanged. *)

Definition latin_isspace (c : char) : bool :=
  ((9 <=? c) && (c <=? 13) || (28 <=? c) && (c <=? 32) || (c =? 133) || (c =? 160)
   || (c =? 5760) || (8192 <=? c) && (c <=? 8202) || (c =? 8232) || (c =? 8233)
   || (c =? 8239) || (c =? 8287) || (c =? 12288))%N.

Definition latin_isdecimal (c : char) : bool := ((48 <=? c) && (c <=? 57))%N.

Definition latin_todecimal (c : char) : Z := Z.of_N c - 48.

Definition paired (c : char) : bool :=
  ((256 <=? c) && (c <=? 303) || (360 <=? c) && (c <=? 361)
   || (416 <=? c) && (c <=? 417) || (7840 <=? c) && (c <=? 7929))%N.

Definition latin_upper_char (c : char) : char :=
  (if (97 <=? c) && (c <=? 122) then c - 32
   else if (224 <=? c) && (c <=? 254) && negb (c =? 247) then c - 32
   else if paired c && N.odd c then c - 1
   else if c =? 432 then 431
   else c)%N.

Definition latin_lower_char (c : char) : char :=
  (if (65 <=? c) && (c <=? 90) then c + 32
   else if (192 <=? c) && (c <=? 222) && negb (c =? 215) then c + 32
   else if paired c && N.even c then c + 1
   else if c =? 431 then 432
   else c)%N.

#[export] Instance latin_db : UnicodeDB := {|
  isspace := latin_isspace;
  isdecimal := latin_isdecimal;
  todecimal := latin_todecimal;
  upper := map latin_upper_char;
  lower := map latin_lower_char
|}.

(** ** Example tables *)

(** A row with a code, a content and a duration; the other cells missing. *)
Definition example_row (stt noi_dung thoi : string) : RawRow :=
  {| raw_STT := Some (lit stt); raw_NoiDung := Some (lit noi_dung);
     raw_DonViThucHien := None; raw_CanCu := None;
     raw_ThoiGian := Some (lit thoi); raw_CanCuTienDo := None;
     raw_GhiChu := None |}.

Definition example_df (csv : list RawRow) : list Row :=
  Eval cbv in load_data csv.

(** A header for step 2 read again after a sub-step of step 2. *)
Definition repeated_header_pre : list Row :=
  example_df [example_row "Bước 2" "Thẩm định" ""; example_row "B2.1" "Nộp hồ sơ" "5 ngày"].

Definition repeated_header_row : Row :=
  Eval cbv in add_columns (example_row "BƯỚC 2" "Thẩm định lại" "").

Definition repeated_header_post : list Row :=
  example_df [example_row "B2.2" "Trả kết quả" "3 ngày"].

(** Step 2 open, followed by two of its sub-steps and one of step 3. *)
Definition open_header : Row :=
  Eval cbv in add_columns (example_row "Bước 2" "Thẩm định" "").

Definition open_segment : list Row :=
  example_df [example_row "B2.1" "Nộp hồ sơ" "5 ngày";
              example_row "B3.1" "Lạc bước" "";
              example_row "b2.2" "Trả kết quả" "3 ngày"].

(** Two headers for step 1, the second one last. *)
Definition twice_csv : list RawRow :=
  [example_row "Bước 1" "Lập hồ sơ" ""; example_row "B1.1" "Soạn" "2 ngày";
   example_row "BƯỚC 1" "Lập lại   hồ sơ" ""; example_row "B1.2" "Nộp" "1 ngày"].

(** Step 5 open, then the bare code of step 5. *)
Definition bare_code_csv : list RawRow :=
  [example_row "Bước 5" "Phê duyệt" ""; example_row "B5" "Ra quyết định" "7 ngày"].

(** Step 1 open, then a sub-step whose unit has two spaces inside. *)
Definition unit_csv : list RawRow :=
  [example_row "Bước 1" "Lập hồ sơ" "";
   {| raw_STT := Some (lit "B1.1"); raw_NoiDung := Some (lit " Soạn  tờ trình ");
      raw_DonViThucHien := Some (lit " Sở  Xây dựng ");
      raw_CanCu := None; raw_ThoiGian := Some (lit "5  ngày");
      raw_CanCuTienDo := Some (lit "   "); raw_GhiChu := None |}].

(** A model with steps 1, 2 and 3 and one sub-step under step 1. *)
Definition three_steps : Steps :=
  Eval cbv in
    match @process_steps latin_db
            (load_data [example_row "Bước 1" "Lập hồ sơ" "";
                        example_row "B1.1" "Soạn" "2 ngày";
                        example_row "Bước 2" "Thẩm định" "";
                        example_row "Bước 3" "Phê duyệt" ""]) with
    | Some steps => steps
    | None => []
    end.

Definition two_steps : Steps := Eval cbv in firstn 2 three_steps.

Definition done_entry : StatusEntry :=
  Eval cbv in {| status := completed; notes := lit "xong" |}.

Definition odd_entry : StatusEntry :=
  Eval cbv in {| status := lit "done"; notes := [] |}.

(** A session in which nothing was loaded yet. *)
Definition fresh_session : Session :=
  {| step_status := None; substep_status := None; checklist_loaded := false |}.

(** The file an earlier session left: step 1 completed, with a note. *)
Definition stored_file : StatusFile :=
  JsonFile {| json_step_status := Some [(str_of_int 1, done_entry)];
              json_substep_status := Some [] |}.

(** A file with completed entries for steps 1, 2 and 3. *)
Definition stale_file : StatusFile :=
  JsonFile {| json_step_status :=
                Some [(str_of_int 1, done_entry); (str_of_int 2, done_entry);
                      (str_of_int 3, done_entry)];
              json_substep_status := Some [] |}.

(** A file whose entry for step 1 has a state outside the three values. *)
Definition odd_file : StatusFile :=
  JsonFile {| json_step_status := Some [(str_of_int 1, odd_entry)];
              json_substep_status := Some [] |}.

(** A session whose step map has the entry of step 1 under its number. *)
Definition one_done_session : Session :=
  {| step_status := Some [(KInt 1, done_entry)];
     substep_status := Some [(KStr (lit "1_B1.1"), done_entry)];
     checklist_loaded := true |}.

(** A store that tracks [n] steps, the first [k] of them completed. *)
Definition tracked (n k : nat) : Steps * Session :=
  (map (fun i => (Z.of_nat i, {| title := []; can_cu := []; can_cu_tien_do := [];
                                 substeps := [] |})) (seq 1 n),
   {| step_status :=
        Some (map (fun i => (KInt (Z.of_nat i),
                             if (i <=? k)%nat then done_entry else default_entry))
                (seq 1 n));
      substep_status := Some [];
      checklist_loaded := true |}).

(** A session as a load leaves it: every key a string. *)
Definition restored_session : Session :=
  Eval cbv in
    {| step_status := Some [(KStr (lit "1"), done_entry); (KStr (lit "2"), default_entry)];
       substep_status := Some [(KStr (lit "1_B1.1"), done_entry)];
       checklist_loaded := true |}.

(** ** The metadata lists of the uploaded files ([src/features.py], 244-348,
    670-826, 1155-1235)

    A directory tree is a dictionary from paths to contents.  A path is the
    string that names it.  The content of a file is either a JSON list of
    file records, as these functions write it, or anything else.  The
    operations of [pathlib] on names are an interface.  Failures of the
    operating system are not modelled: the only exception is that of
    [json.load] on a file that is not such a list. *)

Class PathLib := {
  joinpath : pystr -> pystr -> pystr;
  stem : pystr -> pystr
}.

(** [{'id': ..., 'filename': ..., 'file_type': ..., 'upload_date': ...,
    'file_path': ...}] *)
Record FileInfo := {
  file_id : pystr;
  filename : pystr;
  file_type : pystr;
  upload_date : pystr;
  file_path : pystr
}.

Inductive FileContent :=
| JsonList (metadata : list FileInfo)
| OtherContent.

Definition FileSystem := dict pystr FileContent.

(** [path.unlink()] *)
Fixpoint unlink (path : pystr) (fs : FileSystem) : FileSystem :=
  match fs with
  | [] => []
  | (p, c) :: fs' =>
      if str_eqb path p then fs' else (p, c) :: unlink path fs'
  end.

(** [path.exists()] *)
Definition exists_ (path : pystr) (fs : FileSystem) : bool :=
  dict_mem str_eqb path fs.

Definition metadata_json : pystr := Eval cbv in lit "metadata.json".
Definition text_suffix : pystr := Eval cbv in lit "_text.txt".

Section Storage.
Context {P : PathLib}.

(** [save_file_info]; [new_id] is [str(uuid.uuid4())[:8]] and [now] the
    formatted time of the call.  [None] is the exception of [json.load]. *)
Definition save_file_info (new_id now : pystr) (name type storage_dir : pystr)
           (fs : FileSystem) : option (FileSystem * FileInfo) :=
  let metadata_file := joinpath storage_dir metadata_json in
  let loaded :=
    match dict_get str_eqb metadata_file fs with
    | Some (JsonList metadata) => Some metadata
    | Some OtherContent => None
    | None => Some []
    end in
  match loaded with
  | None => None
  | Some metadata =>
      let file_info :=
        {| file_id := new_id; filename := name; file_type := type;
           upload_date := now; file_path := joinpath storage_dir name |} in
      Some (dict_set str_eqb metadata_file (JsonList (metadata ++ [file_info])) fs,
            file_info)
  end.

(** The three other families have the same body. *)
Definition save_step_template_info (new_id now : pystr) (step_num : Z)
           (name type storage_dir : pystr) (fs : FileSystem) :=
  save_file_info new_id now name type storage_dir fs.

Definition save_substep_template_info (new_id now : pystr) (step_num : Z)
           (substep_code name type storage_dir : pystr) (fs : FileSystem) :=
  save_file_info new_id now name type storage_dir fs.

Definition save_completed_file_info (new_id now : pystr) (step_num : Z)
           (name type storage_dir : pystr) (substep_code : option pystr)
           (fs : FileSystem) :=
  save_file_info new_id now name type storage_dir fs.

(** [load_file_metadata]; [None] is the exception of [json.load]. *)
Definition load_file_metadata (storage_dir : pystr) (fs : FileSystem)
  : option (list FileInfo) :=
  match dict_get str_eqb (joinpath storage_dir metadata_json) fs with
  | Some (JsonList metadata) => Some metadata
  | Some OtherContent => None
  | None => Some []
  end.

Definition load_step_template_metadata := load_file_metadata.
Definition load_substep_template_metadata := load_file_metadata.
Definition load_completed_file_metadata := load_file_metadata.

(** [save_text_content]: the path written. *)
Definition save_text_content (name : pystr) (storage_dir : pystr) (fs : FileSystem)
  : FileSystem * pystr :=
  let text_file_path := joinpath storage_dir (stem name ++ text_suffix) in
  (dict_set str_eqb text_file_path OtherContent fs, text_file_path).

Definition get_saved_text_path (name storage_dir : pystr) (fs : FileSystem)
  : option pystr :=
  let text_file_path := joinpath storage_dir (stem name ++ text_suffix) in
  if exists_ text_file_path fs then Some text_file_path else None.

(** The loop of the delete functions: the last record with the file name,
    and the records with another name. *)
Fixpoint find_and_remove (name : pystr) (metadata : list FileInfo)
         (file_info : option FileInfo) (updated_metadata : list FileInfo)
  : option FileInfo * list FileInfo :=
  match metadata with
  | [] => (file_info, updated_metadata)
  | info :: rest =>
      if str_eqb (filename info) name
      then find_and_remove name rest (Some info) updated_metadata
      else find_and_remove name rest file_info (updated_metadata ++ [info])
  end.

Definition unlink_if_exists (path : pystr) (fs : FileSystem) : FileSystem :=
  if exists_ path fs then unlink path fs else fs.

(** [delete_file_info]: the tree it leaves and its result. *)
Definition delete_file_info (name storage_dir : pystr) (fs : FileSystem)
  : FileSystem * bool :=
  let metadata_file := joinpath storage_dir metadata_json in
  match dict_get str_eqb metadata_file fs with
  | None => (fs, false)
  | Some OtherContent => (fs, false)
  | Some (JsonList metadata) =>
      match find_and_remove name metadata None [] with
      | (Some file_info, updated_metadata) =>
          let fs1 := unlink_if_exists (file_path file_info) fs in
          let fs2 :=
            match get_saved_text_path name storage_dir fs1 with
            | Some text_file_path => unlink_if_exists text_file_path fs1
            | None => fs1
            end in
          (dict_set str_eqb metadata_file (JsonList updated_metadata) fs2, true)
      | (None, _) => (fs, false)
      end
  end.

(** [delete_step_template_file]: as above, without the saved text. *)
Definition delete_step_template_file (step_num : Z) (name storage_dir : pystr)
           (fs : FileSystem) : FileSystem * bool :=
  let metadata_file := joinpath storage_dir metadata_json in
  match dict_get str_eqb metadata_file fs with
  | None => (fs, false)
  | Some OtherContent => (fs, false)
  | Some (JsonList metadata) =>
      match find_and_remove name metadata None [] with
      | (Some file_info, updated_metadata) =>
          let fs1 := unlink_if_exists (file_path file_info) fs in
          (dict_set str_eqb metadata_file (JsonList updated_metadata) fs1, true)
      | (None, _) => (fs, false)
      end
  end.

Definition delete_substep_template_file (step_num : Z) (substep_code : pystr)
           (name storage_dir : pystr) (fs : FileSystem) : FileSystem * bool :=
  delete_step_template_file step_num name storage_dir fs.

Definition delete_completed_file (step_num : Z) (name storage_dir : pystr)
           (substep_code : option pystr) (fs : FileSystem) : FileSystem * bool :=
  delete_step_template_file step_num name storage_dir fs.

End Storage.

(** Names as plain strings: a directory and a name joined by [/], the stem
    of a name the text before its first dot. *)
#[export] Instance plain_paths : PathLib := {|
  joinpath := fun dir name => dir ++ [47%N] ++ name;
  stem := fun name => fst (span (fun c => negb (c =? 46)%N) name)
|}.

(** A directory with two uploads of [a.pdf], one of [b.txt], their files
    and the saved text of [a.pdf]. *)
Definition example_info (i name : string) : FileInfo :=
  {| file_id := lit i; filename := lit name; file_type := lit "application/pdf";
     upload_date := lit "2024-01-01 08:00:00";
     file_path := joinpath (lit "uploaded_documents") (lit name) |}.

Definition example_tree : FileSystem :=
  Eval cbv in
    [(joinpath (lit "uploaded_documents") metadata_json,
      JsonList [example_info "0a1b2c3d" "a.pdf"; example_info "11111111" "b.txt";
                example_info "22222222" "a.pdf"]);
     (joinpath (lit "uploaded_documents") (lit "a.pdf"), OtherContent);
     (joinpath (lit "uploaded_documents") (lit "b.txt"), OtherContent);
     (joinpath (lit "uploaded_documents") (lit "a_text.txt"), OtherContent)].

(** ** The API key in the [.env] file ([src/features.py], 1650-1701)

    The file is absent or holds a text.  Lines are read as Python reads a
    text file: [\r\n] and [\r] count as [\n], and every line keeps its [\n].
    Writing is that of a system whose line separator is [\n]. *)

Definition OPENAI_API_KEY_eq : pystr := Eval cbv in lit "OPENAI_API_KEY=".
Definition ch_eq : char := 61%N.
Definition ch_lf : char := 10%N.
Definition ch_cr : char := 13%N.

(** The text as the reader sees it (universal newlines). *)
Fixpoint translate_newlines (s : pystr) : pystr :=
  match s with
  | [] => []
  | c :: s' =>
      if (c =? ch_cr)%N then
        match s' with
        | c' :: s'' =>
            if (c' =? ch_lf)%N then ch_lf :: translate_newlines s''
            else ch_lf :: translate_newlines s'
        | [] => [ch_lf]
        end
      else c :: translate_newlines s'
  end.

(** The lines of a text, each with its [\n]; [cur] is the line being read,
    last character first. *)
Fixpoint lines_from (cur s : pystr) : list pystr :=
  match s with
  | [] => match cur with [] => [] | _ => [rev cur] end
  | c :: s' =>
      if (c =? ch_lf)%N then rev (c :: cur) :: lines_from [] s'
      else lines_from (c :: cur) s'
  end.

(** [for line in f] *)
Definition readlines (text : pystr) : list pystr :=
  lines_from [] (translate_newlines text).

Definition is_newline (c : char) : bool := ((c =? ch_lf) || (c =? ch_cr))%N.

Fixpoint lstrip_chars (f : char -> bool) (s : pystr) : pystr :=
  match s with
  | [] => []
  | c :: s' => if f c then lstrip_chars f s' else s
  end.

(** [line.rstrip('\n\r')] *)
Definition rstrip_newlines (line : pystr) : pystr :=
  rev (lstrip_chars is_newline (rev line)).

(** [s.startswith(p)] *)
Definition startswith (p s : pystr) : bool :=
  match strip_prefix p s with Some _ => true | None => false end.

(** [s.split(c, 1)[1]]; [None] is the [IndexError]. *)
Fixpoint split_once_second (c : char) (s : pystr) : option pystr :=
  match s with
  | [] => None
  | x :: s' => if (x =? c)%N then Some s' else split_once_second c s'
  end.

Section EnvFile.
Context {U : UnicodeDB}.

(** The loop of [save_api_key_to_env] over the lines of the file. *)
Fixpoint scan_env (api_key : pystr) (lines : list pystr)
         (env_lines : list pystr) (found_openai_key : bool)
  : list pystr * bool :=
  match lines with
  | [] => (env_lines, found_openai_key)
  | line :: rest =>
      let original_line := rstrip_newlines line in
      let line_stripped := strip original_line in
      if startswith OPENAI_API_KEY_eq line_stripped then
        match api_key with
        | [] => scan_env api_key rest env_lines true
        | _ => scan_env api_key rest
                 (env_lines ++ [OPENAI_API_KEY_eq ++ api_key]) true
        end
      else scan_env api_key rest (env_lines ++ [original_line]) found_openai_key
  end.

(** [for line in env_lines: f.write(line + '\n')] *)
Definition write_lines (env_lines : list pystr) : pystr :=
  List.concat (map (fun line => line ++ [ch_lf]) env_lines).

(** [save_api_key_to_env]: the file it leaves; its result is [True]. *)
Definition save_api_key_to_env (api_key : pystr) (env : option pystr)
  : option pystr * bool :=
  let '(env_lines, found_openai_key) :=
    match env with
    | Some text => scan_env api_key (readlines text) [] false
    | None => ([], false)
    end in
  let env_lines :=
    match api_key, found_openai_key with
    | _ :: _, false => env_lines ++ [OPENAI_API_KEY_eq ++ api_key]
    | _, _ => env_lines
    end in
  (Some (write_lines env_lines), true).

(** The loop of [load_api_key_from_env]; an [IndexError] would end in the
    final [return None]. *)
Fixpoint first_key (lines : list pystr) : option pystr :=
  match lines with
  | [] => None
  | line :: rest =>
      let line := strip line in
      if startswith OPENAI_API_KEY_eq line then
        match split_once_second ch_eq line with
        | Some v => Some (strip v)
        | None => None
        end
      else first_key rest
  end.

Definition load_api_key_from_env (env : option pystr) : option pystr :=
  match env with
  | Some text => first_key (readlines text)
  | None => None
  end.

End EnvFile.

(** A [.env] file of three lines, the second one setting the key. *)
Definition example_env : pystr :=
  Eval cbv in
    lit "DEBUG=1" ++ [ch_lf] ++ lit " OPENAI_API_KEY=sk-old " ++ [ch_cr; ch_lf]
    ++ lit "LANG=vi".

(** ** The timeline of [render_timeline_chart] ([src/features.py], 52-68) *)

(** [sorted(l)] on a list of [int]s. *)
Fixpoint insert_sorted (n : Z) (l : list Z) : list Z :=
  match l with
  | [] => [n]
  | x :: l' => if n <? x then n :: l else x :: insert_sorted n l'
  end.

Definition sorted (l : list Z) : list Z := fold_right insert_sorted [] l.

(** One row of [timeline_data]. *)
Record TimelineRow := {
  tl_buoc : pystr;
  tl_noi_dung : pystr;
  tl_bat_dau : Z;
  tl_ket_thuc : Z;
  tl_thoi_gian : Z
}.

Definition Buoc_ : pystr := Eval cbv in lit "Bước ".
Definition dots : pystr := Eval cbv in lit "...".

(** [s[:n] + ('...' if len(s) > n else '')] *)
Definition shorten (n : nat) (s : pystr) : pystr :=
  firstn n s ++ (if (n <? List.length s)%nat then dots else []).

(** [step_days.get(step_num, 0)] *)
Definition days_of (step_days : dict Z Z) (step_num : Z) : Z :=
  match dict_get Z.eqb step_num step_days with
  | Some d => d
  | None => 0
  end.

(** The loop over the sorted step numbers; [None] is the [KeyError] of
    [steps[step_num]]. *)
Fixpoint timeline_loop (steps : Steps) (step_days : dict Z Z) (keys : list Z)
         (timeline_data : list TimelineRow) (cumulative_days : Z)
  : option (list TimelineRow) :=
  match keys with
  | [] => Some timeline_data
  | step_num :: rest =>
      match dict_get Z.eqb step_num steps with
      | None => None
      | Some step_data =>
          let days := days_of step_days step_num in
          timeline_loop steps step_days rest
            (timeline_data
             ++ [{| tl_buoc := Buoc_ ++ str_of_int step_num;
                    tl_noi_dung := shorten 50 (title step_data);
                    tl_bat_dau := cumulative_days;
                    tl_ket_thuc := cumulative_days + days;
                    tl_thoi_gian := days |}])
            (cumulative_days + days)
      end
  end.

Definition timeline_data (steps : Steps) (step_days : dict Z Z)
  : option (list TimelineRow) :=
  timeline_loop steps step_days (sorted (dict_keys steps)) [] 0.

(** ** Vocabulary of the statements *)

(** The number a row opens as a step header: its level is ['step'] and its
    number is not zero. *)
Definition header_of (row : Row) : option Z :=
  if is_step (Level row) then truthy (StepNum row) else None.

(** The step that is open after the rows [df]: the number of the last
    header row, if any. *)
Definition open_step (df : list Row) : option Z :=
  fold_left (fun cur row => match header_of row with Some n => Some n | None => cur end)
    df None.

(** The open step [c] and the level of a row that is appended as a sub-step
    when the open step is [cur]. *)
Definition accepted (cur : option Z) (row : Row) : option (Z * level) :=
  match header_of row with
  | Some _ => None
  | None =>
      match Level row, truthy cur with
      | Some lv, Some c =>
          if opt_int_eqb (StepNum row) cur then Some (c, lv) else None
      | _, _ => None
      end
  end.

(** The sub-steps the rows [seg] add to step [n] while it stays open: the
    rows with a level whose number is [n], in the order of the rows. *)
Definition subs_of {U : UnicodeDB} (n : Z) (seg : list Row) : list SubStepInfo :=
  flat_map (fun row => match accepted (Some n) row with
                       | Some (_, lv) => [substep_info row lv]
                       | None => []
                       end) seg.

(** The same list, read off the rows: every row with a level whose number
    is [n] gives one sub-step. *)
Definition sub_rows {U : UnicodeDB} (n : Z) (seg : list Row) : list SubStepInfo :=
  flat_map (fun row => match Level row with
                       | Some lv =>
                           if opt_int_eqb (StepNum row) (Some n)
                           then [substep_info row lv] else []
                       | None => []
                       end) seg.

(** States of the loop of [process_steps] in which [steps] is a dictionary
    and the open step, if any, is one of its keys. *)
Definition wf (st : Steps * option Z) : Prop :=
  NoDup (dict_keys (fst st)) /\
  forall c, snd st = Some c -> c <> 0 /\ In c (dict_keys (fst st)).

(** The title and the two bases of a step entry. *)
Definition heading (sd : StepData) : pystr * pystr * pystr :=
  (title sd, can_cu sd, can_cu_tien_do sd).

(** The last entry a JSON object gives for a member name. *)
Definition last_member (name : pystr) (o : JsonObject) : option StatusEntry :=
  dict_get str_eqb name (rev o).

Definition valid_state (s : pystr) : Prop :=
  s = not_started \/ s = in_progress \/ s = completed.

Definition all_of (f : char -> bool) (s : pystr) : Prop := forallb f s = true.

(** No character of [s] satisfies [f]. *)
Definition none_of (f : char -> bool) (s : pystr) : Prop :=
  forallb (fun c => negb (f c)) s = true.

Definition starts_with (f : char -> bool) (s : pystr) : Prop :=
  match s with c :: _ => f c = true | [] => False end.

Definition ends_with (f : char -> bool) (s : pystr) : Prop :=
  starts_with f (rev s).

(** What the statements on durations need of the character database: a
    space is not a digit, the letter [n] is not a digit, and digits have
    non-negative values. *)
Class UnicodeLaws (U : UnicodeDB) : Prop := {
  space_not_decimal : forall c, isspace c = true -> isdecimal c = false;
  n_not_decimal : isdecimal 110%N = false;
  todecimal_nonneg : forall c, isdecimal c = true -> 0 <= todecimal c
}.

(** At offset [i] of [s] stands the integer [g] followed, after optional
    whitespace, by the day unit. *)
Definition day_pattern_at {U : UnicodeDB} (s : pystr) (i : nat) (g : pystr) : Prop :=
  exists ws rest,
    skipn i s = g ++ ws ++ NGAY ++ rest
    /\ g <> [] /\ all_of isdecimal g /\ all_of isspace ws.

(** A step whose sub-steps have the given duration texts. *)
Definition step_with_durations (l : list pystr) : StepData :=
  {| title := []; can_cu := []; can_cu_tien_do := [];
     substeps := map (fun t => {| code := []; content := []; don_vi := [];
                                  sub_can_cu := []; thoi_gian := t;
                                  sub_can_cu_tien_do := []; ghi_chu := [];
                                  sub_level := LSub 1 |}) l |}.

(** The durations read in the sub-steps of a step, and the sum of a list. *)
Definition durations {U : UnicodeDB} (sd : StepData) : list Z :=
  map (fun substep => extract_days (Some (thoi_gian substep))) (substeps sd).

Definition sum (l : list Z) : Z := fold_right Z.add 0 l.

(** [s] does not go on with a digit, nor with a dot-group (a dot and a
    digit). *)
Definition no_group {U : UnicodeDB} (s : pystr) : Prop :=
  ~ starts_with isdecimal s
  /\ forall r, s = ch_dot :: r -> ~ starts_with isdecimal r.

(** [l] is the list of the words of [s]: its maximal runs of characters
    that are not whitespace. *)
Inductive words {U : UnicodeDB} : pystr -> list pystr -> Prop :=
| words_nil : words [] []
| words_space c s l : isspace c = true -> words s l -> words (c :: s) l
| words_word w s l :
    w <> [] -> none_of isspace w -> (s = [] \/ starts_with isspace s) ->
    words s l -> words (w ++ s) (w :: l).

(** [v] is the cell without its surrounding whitespace, and the empty string
    for a missing cell. *)
Definition trimmed {U : UnicodeDB} (cell : option pystr) (v : pystr) : Prop :=
  match cell with
  | None => v = []
  | Some s =>
      exists a b,
        s = a ++ v ++ b /\ all_of isspace a /\ all_of isspace b
        /\ ~ starts_with isspace v /\ ~ ends_with isspace v
  end.

(** [v] is the trimmed cell with every run of whitespace replaced by one
    space, and the empty string for a missing cell. *)
Definition collapsed {U : UnicodeDB} (cell : option pystr) (v : pystr) : Prop :=
  match cell with
  | None => v = []
  | Some s =>
      exists t l, trimmed (Some s) t /\ words t l /\ v = join [ch_space] l
  end.

(** The header numbers of the rows [df], one for each header row, in the
    order of the rows. *)
Definition headers (df : list Row) : list Z :=
  flat_map (fun row => match header_of row with Some n => [n] | None => [] end) df.

(** The numbers of [l] in the order in which they first occur, starting
    from the numbers [seen]. *)
Definition seen_after (seen l : list Z) : list Z :=
  fold_left (fun acc n => if existsb (Z.eqb n) acc then acc else acc ++ [n]) l seen.

Definition first_seen (l : list Z) : list Z := seen_after [] l.

(** Where an entry of the model comes from: its heading from a header row,
    each of its sub-steps from a row with a level and the same number. *)
Definition from_rows {U : UnicodeDB} (seen : list Row) (n : Z) (sd : StepData) : Prop :=
  (exists h, In h seen /\ header_of h = Some n
             /\ heading sd = heading (header_data h n))
  /\ forall info, In info (substeps sd) ->
       exists row lv, In row seen /\ StepNum row = Some n
                      /\ Level row = Some lv /\ info = substep_info row lv.

(** The keys under which the status store tracks a model: the step
    numbers, and one text per sub-step. *)
Definition model_step_keys (steps : Steps) : list pykey :=
  map KInt (dict_keys steps).

Definition model_substep_keys (steps : Steps) : list pykey :=
  flat_map (fun item => map (substep_key (fst item)) (substeps (snd item))) steps.

(** The two maps [init_checklist_status] starts from: those of the session
    when it has loaded, those of the file otherwise. *)
Definition maps_before (w : World) : StatusMap * StatusMap :=
  if checklist_loaded (session w)
  then (get_or_empty (step_status (session w)),
        get_or_empty (substep_status (session w)))
  else load_checklist_status (file w).

(** The entry [init_checklist_status] leaves under [k] in a map that was [d],
    [keys] being the keys of the model for that map. *)
Definition entry_after (keys : list pykey) (d : StatusMap) (k : pykey)
  : option StatusEntry :=
  match dict_get pykey_eqb k d with
  | Some e => Some e
  | None => if existsb (pykey_eqb k) keys then Some default_entry else None
  end.

(** A dictionary as [json.load] gives it: no key twice, every key a string. *)
Definition str_keyed (d : StatusMap) : Prop :=
  NoDup (dict_keys d) /\ forall k, In k (dict_keys d) -> exists s, k = KStr s.

(** The records of a metadata list with another file name than [name], and
    the last record with that name. *)
Definition others (name : pystr) (l : list FileInfo) : list FileInfo :=
  filter (fun info => negb (str_eqb (filename info) name)) l.

Definition last_named (name : pystr) (l : list FileInfo) : option FileInfo :=
  find (fun info => str_eqb (filename info) name) (rev l).

(** [s] has no line break in it. *)
Definition no_newline (s : pystr) : Prop := none_of is_newline s.

(** A line of the [.env] file, without its line break, that sets the key. *)
Definition is_key_line {U : UnicodeDB} (line : pystr) : bool :=
  startswith OPENAI_API_KEY_eq (strip line).

(** The lines of a file without their line breaks; no line for no file. *)
Definition env_lines_of (env : option pystr) : list pystr :=
  match env with
  | Some text => map rstrip_newlines (readlines text)
  | None => []
  end.

(** What the statements on the [.env] file need of the character database:
    the line feed is whitespace, the letter [O] and the sign [=] are not. *)
Definition env_chars {U : UnicodeDB} : Prop :=
  isspace ch_lf = true /\ isspace 79%N = false /\ isspace ch_eq = false.

(** The lines [save_api_key_to_env] writes, from the lines it read. *)
Definition saved_lines {U : UnicodeDB} (api_key : pystr) (env : option pystr) : list pystr :=
  flat_map (fun o => if is_key_line o
                     then match api_key with
                          | [] => []
                          | _ => [OPENAI_API_KEY_eq ++ api_key]
                          end
                     else [o]) (env_lines_of env)
  ++ match api_key with
     | [] => []
     | _ => if existsb is_key_line (env_lines_of env) then []
            else [OPENAI_API_KEY_eq ++ api_key]
     end.

(** Rows that follow one another without gap or overlap from day [start]. *)
Fixpoint chained (start : Z) (rows : list TimelineRow) : Prop :=
  match rows with
  | [] => True
  | r :: rest => tl_bat_dau r = start /\ chained (tl_ket_thuc r) rest
  end.

(** The day the last row ends, [start] when there is none. *)
Definition last_day (start : Z) (rows : list TimelineRow) : Z :=
  fold_left (fun _ r => tl_ket_thuc r) rows start.

(** ** Equality of strings *)

Lemma str_eqb_eq (a b : pystr) : str_eqb a b = true <-> a = b.
Proof.
  unfold str_eqb. destruct (list_eq_dec N.eq_dec a b); split; congruence.
Qed.

Lemma str_eqb_refl (a : pystr) : str_eqb a a = true.
Proof. now apply str_eqb_eq. Qed.

(** ** Dictionaries: lookup after assignment *)

Section DictFacts.
Variables (K V : Type) (eqb : K -> K -> bool).
Hypothesis eqb_eq : forall a b, eqb a b = true <-> a = b.

Lemma eqb_same (k : K) : eqb k k = true.
Proof. now apply eqb_eq. Qed.

Lemma eqb_diff (a b : K) : a <> b -> eqb a b = false.
Proof.
  intros H. destruct (eqb a b) eqn:E; [|reflexivity].
  apply eqb_eq in E. contradiction.
Qed.

Lemma dict_get_set_same (k : K) (v : V) (d : dict K V) :
  dict_get eqb k (dict_set eqb k v d) = Some v.
Proof.
  induction d as [|[k' v'] d IH]; simpl.
  - now rewrite eqb_same.
  - destruct (eqb k k') eqn:E; simpl; rewrite E; auto.
Qed.

Lemma dict_get_set_other (k k' : K) (v : V) (d : dict K V) :
  k <> k' -> dict_get eqb k' (dict_set eqb k v d) = dict_get eqb k' d.
Proof.
  intros Hne. induction d as [|[k0 v0] d IH]; simpl.
  - rewrite eqb_diff; auto.
  - destruct (eqb k k0) eqn:E; simpl.
    + apply eqb_eq in E. subst k0. rewrite (eqb_diff (a:=k') (b:=k)); auto.
    + destruct (eqb k' k0); auto.
Qed.

Lemma dict_get_In (k : K) (d : dict K V) :
  dict_mem eqb k d = true <-> In k (dict_keys d).
Proof.
  unfold dict_mem. induction d as [|[k0 v0] d IH]; simpl.
  - split; [discriminate | tauto].
  - destruct (eqb k k0) eqn:E.
    + apply eqb_eq in E. subst. split; auto.
    + rewrite IH. split; [tauto|]. intros [H|H]; auto.
      subst. rewrite eqb_same in E. discriminate.
Qed.

Lemma dict_keys_set (k : K) (v : V) (d : dict K V) :
  dict_keys (dict_set eqb k v d)
  = if dict_mem eqb k d then dict_keys d else dict_keys d ++ [k].
Proof.
  unfold dict_mem. induction d as [|[k0 v0] d IH]; simpl; auto.
  destruct (eqb k k0) eqn:E; simpl; auto.
  rewrite IH. destruct (dict_get eqb k d); auto.
Qed.

Lemma dict_set_NoDup (k : K) (v : V) (d : dict K V) :
  NoDup (dict_keys d) -> NoDup (dict_keys (dict_set eqb k v d)).
Proof.
  intros H. rewrite dict_keys_set.
  destruct (dict_mem eqb k d) eqn:E; auto.
  apply NoDup_app; auto.
  - repeat constructor. simpl. tauto.
  - intros x Hx [Hk|[]]. subst x.
    apply dict_get_In in Hx. congruence.
Qed.

Lemma dict_set_In (k k' : K) (v : V) (d : dict K V) :
  In k' (dict_keys d) -> In k' (dict_keys (dict_set eqb k v d)).
Proof.
  intros H. rewrite dict_keys_set.
  destruct (dict_mem eqb k d); auto. apply in_or_app; auto.
Qed.

Lemma dict_set_In_same (k : K) (v : V) (d : dict K V) :
  In k (dict_keys (dict_set eqb k v d)).
Proof.
  rewrite dict_keys_set. destruct (dict_mem eqb k d) eqn:E.
  - now apply dict_get_In.
  - apply in_or_app. right. simpl. auto.
Qed.

End DictFacts.

Lemma pykey_eqb_eq (a b : pykey) : pykey_eqb a b = true <-> a = b.
Proof.
  destruct a, b; simpl; split; intros H; try discriminate; try congruence.
  - apply Z.eqb_eq in H. congruence.
  - inversion H. apply Z.eqb_refl.
  - apply str_eqb_eq in H. congruence.
  - inversion H. apply str_eqb_refl.
Qed.

(** ** The loop of [process_steps] *)

Lemma truthy_Some (v : option Z) (n : Z) :
  truthy v = Some n <-> v = Some n /\ n <> 0.
Proof.
  unfold truthy. destruct v as [m|].
  - destruct (Z.eqb_spec m 0); split.
    + discriminate.
    + intros [H H0]. inversion H. congruence.
    + intros H. inversion H. subst. auto.
    + intros [H _]. exact H.
  - split; [discriminate | intros [H _]; discriminate].
Qed.

Lemma opt_int_eqb_eq (a b : option Z) : opt_int_eqb a b = true <-> a = b.
Proof.
  destruct a, b; simpl; split; intros H; try discriminate; auto.
  - apply Z.eqb_eq in H. congruence.
  - inversion H. apply Z.eqb_refl.
Qed.

Section ProcessFacts.
Context {U : UnicodeDB}.

Lemma process_row_header (steps : Steps) (cur : option Z) (row : Row) (n : Z) :
  header_of row = Some n ->
  process_row (steps, cur) row
  = Some (dict_set Z.eqb n (header_data row n) steps, Some n).
Proof.
  unfold header_of, process_row. intros H.
  destruct (is_step (Level row)); [|discriminate].
  rewrite H. reflexivity.
Qed.

Lemma process_row_accepted (steps : Steps) (cur : option Z) (row : Row)
      (c : Z) (lv : level) :
  accepted cur row = Some (c, lv) ->
  process_row (steps, cur) row
  = match dict_get Z.eqb c steps with
    | Some sd =>
        Some (dict_set Z.eqb c (append_substep sd (substep_info row lv)) steps, cur)
    | None => None
    end.
Proof.
  unfold accepted, header_of, process_row. intros H.
  destruct (is_step (Level row)), (truthy (StepNum row)); try discriminate;
    destruct (Level row); try discriminate;
    destruct (truthy cur); try discriminate;
    destruct (opt_int_eqb (StepNum row) cur); try discriminate;
    inversion H; subst; reflexivity.
Qed.

Lemma process_row_skipped (st : Steps * option Z) (row : Row) :
  header_of row = None -> accepted (snd st) row = None ->
  process_row st row = Some st.
Proof.
  destruct st as [steps cur]. unfold accepted, header_of, process_row. simpl.
  intros H. rewrite H.
  destruct (is_step (Level row)), (truthy (StepNum row)); try discriminate;
    destruct (Level row); auto;
    destruct (truthy cur); auto;
    destruct (opt_int_eqb (StepNum row) cur); auto; discriminate.
Qed.

Lemma accepted_open (cur : option Z) (row : Row) (c : Z) (lv : level) :
  accepted cur row = Some (c, lv) ->
  cur = Some c /\ c <> 0 /\ StepNum row = Some c /\ Level row = Some lv
  /\ header_of row = None.
Proof.
  unfold accepted. destruct (header_of row); [discriminate|].
  destruct (Level row); [|discriminate].
  destruct (truthy cur) eqn:T; [|discriminate].
  destruct (opt_int_eqb (StepNum row) cur) eqn:E; [|discriminate].
  intros H. inversion H. subst.
  apply truthy_Some in T. destruct T as [T T0].
  apply opt_int_eqb_eq in E. subst cur. auto.
Qed.

Lemma process_row_wf (st : Steps * option Z) (row : Row) :
  wf st -> exists st', process_row st row = Some st' /\ wf st'.
Proof.
  destruct st as [steps cur]. intros [Hnd Hcur]. simpl in Hnd, Hcur.
  destruct (header_of row) as [n|] eqn:Hh.
  - rewrite (process_row_header _ _ _ Hh). eexists. split; [reflexivity|].
    split; simpl.
    + apply dict_set_NoDup; auto. apply Z.eqb_eq.
    + intros c Hc. inversion Hc. subst c. split.
      * unfold header_of in Hh. destruct (is_step (Level row)); [|discriminate].
        now apply truthy_Some in Hh.
      * apply dict_set_In_same. apply Z.eqb_eq.
  - destruct (accepted cur row) as [[c lv]|] eqn:Ha.
    + rewrite (process_row_accepted _ _ _ Ha).
      apply accepted_open in Ha. destruct Ha as [Hc _]. subst cur.
      destruct (Hcur c eq_refl) as [Hc0 Hin].
      apply (dict_get_In Z.eqb Z.eqb_eq) in Hin. unfold dict_mem in Hin.
      destruct (dict_get Z.eqb c steps) as [sd|]; [|discriminate].
      eexists. split; [reflexivity|]. split; simpl.
      * apply dict_set_NoDup; auto. apply Z.eqb_eq.
      * intros c' Hc'. inversion Hc'. subst c'. split; auto.
        apply dict_set_In_same. apply Z.eqb_eq.
    + exists (steps, cur). split.
      * now apply process_row_skipped.
      * split; auto.
Qed.

Lemma process_rows_wf (df : list Row) (st : Steps * option Z) :
  wf st -> exists st', process_rows st df = Some st' /\ wf st'.
Proof.
  revert st. induction df as [|row df IH]; intros st Hwf; simpl.
  - eauto.
  - destruct (process_row_wf row Hwf) as [st1 [E1 W1]]. rewrite E1. auto.
Qed.

Lemma wf_init : wf ([], None).
Proof. split; simpl; [constructor | discriminate]. Qed.

Lemma process_rows_app (a b : list Row) (st : Steps * option Z) :
  process_rows st (a ++ b)
  = match process_rows st a with
    | Some st' => process_rows st' b
    | None => None
    end.
Proof.
  revert st. induction a as [|row a IH]; intros st; simpl; auto.
  destruct (process_row st row); auto.
Qed.

Lemma process_row_current (st st' : Steps * option Z) (row : Row) :
  process_row st row = Some st' ->
  snd st' = match header_of row with Some n => Some n | None => snd st end.
Proof.
  destruct st as [steps cur]. cbn [snd].
  destruct (header_of row) as [n|] eqn:Hh.
  - rewrite (process_row_header _ _ _ Hh). intros H. now inversion H.
  - destruct (accepted cur row) as [[c lv]|] eqn:Ha.
    + rewrite (process_row_accepted _ _ _ Ha).
      destruct (dict_get Z.eqb c steps); [|discriminate].
      intros H. now inversion H.
    + rewrite (process_row_skipped (steps, cur) row Hh Ha).
      intros H. now inversion H.
Qed.

Lemma process_rows_current (df : list Row) (st st' : Steps * option Z) :
  process_rows st df = Some st' ->
  snd st' = fold_left (fun cur row => match header_of row with
                                      | Some n => Some n
                                      | None => cur
                                      end) df (snd st).
Proof.
  revert st. induction df as [|row df IH]; intros st; simpl.
  - intros H. now inversion H.
  - destruct (process_row st row) as [st1|] eqn:E; [|discriminate].
    intros H. rewrite (IH _ H). now rewrite (process_row_current _ _ E).
Qed.

Lemma process_rows_open (df : list Row) (st' : Steps * option Z) :
  process_rows ([], None) df = Some st' -> snd st' = open_step df.
Proof. intros H. now rewrite (process_rows_current _ _ H). Qed.

End ProcessFacts.

Section Segments.
Context {U : UnicodeDB}.

Lemma process_row_keys (st st' : Steps * option Z) (row : Row) (n : Z) :
  process_row st row = Some st' ->
  In n (dict_keys (fst st)) -> In n (dict_keys (fst st')).
Proof.
  destruct st as [steps cur]. cbn [fst].
  destruct (header_of row) as [m|] eqn:Hh.
  - rewrite (process_row_header _ _ _ Hh). intros H. inversion H. cbn [fst].
    now apply dict_set_In.
  - destruct (accepted cur row) as [[c lv]|] eqn:Ha.
    + rewrite (process_row_accepted _ _ _ Ha).
      destruct (dict_get Z.eqb c steps); [|discriminate].
      intros H. inversion H. cbn [fst]. now apply dict_set_In.
    + rewrite (process_row_skipped (steps, cur) row Hh Ha).
      intros H. now inversion H.
Qed.

Lemma process_row_heading (st st' : Steps * option Z) (row : Row) (n : Z) :
  process_row st row = Some st' -> header_of row <> Some n ->
  option_map heading (dict_get Z.eqb n (fst st'))
  = option_map heading (dict_get Z.eqb n (fst st)).
Proof.
  destruct st as [steps cur]. cbn [fst].
  destruct (header_of row) as [m|] eqn:Hh.
  - rewrite (process_row_header _ _ _ Hh). intros H Hne. inversion H. cbn [fst].
    rewrite (dict_get_set_other Z.eqb Z.eqb_eq); congruence.
  - destruct (accepted cur row) as [[c lv]|] eqn:Ha.
    + rewrite (process_row_accepted _ _ _ Ha).
      destruct (dict_get Z.eqb c steps) as [sd|] eqn:G; [|discriminate].
      intros H _. inversion H. cbn [fst].
      destruct (Z.eq_dec c n) as [->|Hcn].
      * rewrite (dict_get_set_same Z.eqb Z.eqb_eq), G. reflexivity.
      * now rewrite (dict_get_set_other Z.eqb Z.eqb_eq).
    + rewrite (process_row_skipped (steps, cur) row Hh Ha).
      intros H _. now inversion H.
Qed.

Lemma process_rows_heading (df : list Row) (st st' : Steps * option Z) (n : Z) :
  process_rows st df = Some st' ->
  (forall r, In r df -> header_of r <> Some n) ->
  option_map heading (dict_get Z.eqb n (fst st'))
  = option_map heading (dict_get Z.eqb n (fst st)).
Proof.
  revert st. induction df as [|row df IH]; intros st; simpl.
  - intros H _. now inversion H.
  - destruct (process_row st row) as [st1|] eqn:E; [|discriminate].
    intros H Hno. rewrite (IH _ H); [|intros r Hr; apply Hno; now right].
    apply (process_row_heading _ _ E). apply Hno. now left.
Qed.

Lemma accepted_None_closed (row : Row) : accepted None row = None.
Proof.
  unfold accepted. destruct (header_of row); auto. destruct (Level row); auto.
Qed.

Lemma process_rows_closed (seg : list Row) (steps : Steps) :
  (forall r, In r seg -> header_of r = None) ->
  process_rows (steps, None) seg = Some (steps, None).
Proof.
  induction seg as [|row seg IH]; intros Hno; cbn [process_rows]; auto.
  rewrite (process_row_skipped (steps, None) row).
  - apply IH. intros r Hr. apply Hno. now right.
  - apply Hno. now left.
  - apply accepted_None_closed.
Qed.

Lemma process_rows_segment (seg : list Row) (st : Steps * option Z)
      (c : Z) (sd : StepData) :
  wf st -> snd st = Some c -> dict_get Z.eqb c (fst st) = Some sd ->
  (forall r, In r seg -> header_of r = None) ->
  exists st',
    process_rows st seg = Some st' /\ wf st' /\ snd st' = Some c
    /\ dict_get Z.eqb c (fst st')
       = Some {| title := title sd; can_cu := can_cu sd;
                 can_cu_tien_do := can_cu_tien_do sd;
                 substeps := substeps sd ++ subs_of c seg |}
    /\ (forall m, m <> c -> dict_get Z.eqb m (fst st') = dict_get Z.eqb m (fst st))
    /\ dict_keys (fst st') = dict_keys (fst st).
Proof.
  revert st sd. induction seg as [|row seg IH]; intros [steps cur] sd Hwf Hc Hg Hno.
  - exists (steps, cur). cbn [process_rows subs_of flat_map fst snd] in *.
    rewrite app_nil_r. destruct sd; cbn [title can_cu can_cu_tien_do substeps].
    split; [reflexivity|]. split; [exact Hwf|]. split; [exact Hc|].
    split; [exact Hg|]. split; auto.
  - cbn [snd fst] in Hc, Hg. subst cur.
    assert (Hh : header_of row = None) by (apply Hno; simpl; auto).
    assert (Hno' : forall r, In r seg -> header_of r = None)
      by (intros r Hr; apply Hno; simpl; auto).
    cbn [process_rows]. cbn [subs_of flat_map].
    destruct (accepted (Some c) row) as [[c' lv]|] eqn:Ha.
    + rewrite (process_row_accepted _ _ _ Ha).
      destruct (accepted_open _ _ Ha) as [Hc' _]. inversion Hc'. subst c'.
      rewrite Hg.
      assert (Hwf' : wf (dict_set Z.eqb c (append_substep sd (substep_info row lv)) steps, Some c)).
      { destruct Hwf as [Hnd Hcur]. split; cbn [fst snd].
        - apply dict_set_NoDup; auto. apply Z.eqb_eq.
        - intros x Hx. inversion Hx. subst x. split.
          + apply (Hcur c eq_refl).
          + apply dict_set_In_same. apply Z.eqb_eq. }
      destruct (IH _ (append_substep sd (substep_info row lv)) Hwf' eq_refl
                  (dict_get_set_same Z.eqb Z.eqb_eq _ _ _) Hno')
        as [st' [E [W [C [G [O Ks]]]]]].
      exists st'. cbn [fst snd] in *.
      split; [exact E|]. split; [exact W|]. split; [exact C|].
      split; [|split].
      * rewrite G. simpl. now rewrite <- app_assoc.
      * intros m Hm. rewrite (O m Hm).
        apply (dict_get_set_other Z.eqb Z.eqb_eq). congruence.
      * rewrite Ks, (dict_keys_set Z.eqb). unfold dict_mem. now rewrite Hg.
    + rewrite (process_row_skipped (steps, Some c) row Hh Ha).
      destruct (IH (steps, Some c) sd Hwf eq_refl Hg Hno')
        as [st' [E [W [C [G [O Ks]]]]]].
      exists st'. cbn [fst snd] in *. auto 10.
Qed.

(** Two runs that agree on the open step and on the entry of [n] keep
    agreeing on them. *)
Lemma process_row_agree (st1 st2 : Steps * option Z) (row : Row) (n : Z) :
  wf st1 -> wf st2 -> snd st1 = snd st2 ->
  dict_get Z.eqb n (fst st1) = dict_get Z.eqb n (fst st2) ->
  exists st1' st2',
    process_row st1 row = Some st1' /\ process_row st2 row = Some st2'
    /\ wf st1' /\ wf st2' /\ snd st1' = snd st2'
    /\ dict_get Z.eqb n (fst st1') = dict_get Z.eqb n (fst st2').
Proof.
  intros W1 W2 Hc Hg.
  destruct (process_row_wf row W1) as [st1' [E1 W1']].
  destruct (process_row_wf row W2) as [st2' [E2 W2']].
  exists st1', st2'.
  split; [exact E1|]. split; [exact E2|]. split; [exact W1'|].
  split; [exact W2'|]. split.
  - rewrite (process_row_current _ _ E1), (process_row_current _ _ E2).
    now rewrite Hc.
  - destruct st1 as [s1 cur], st2 as [s2 cur2]. cbn [fst snd] in *. subst cur2.
    destruct (header_of row) as [m|] eqn:Hh.
    + rewrite (process_row_header s1 _ _ Hh) in E1.
      rewrite (process_row_header s2 _ _ Hh) in E2.
      inversion E1. inversion E2. cbn [fst].
      destruct (Z.eq_dec m n) as [->|Hmn].
      * now rewrite !(dict_get_set_same Z.eqb Z.eqb_eq).
      * now rewrite !(dict_get_set_other Z.eqb Z.eqb_eq).
    + destruct (accepted cur row) as [[c lv]|] eqn:Ha.
      * rewrite (process_row_accepted s1 _ _ Ha) in E1.
        rewrite (process_row_accepted s2 _ _ Ha) in E2.
        destruct (dict_get Z.eqb c s1) as [sd1|] eqn:G1; [|discriminate].
        destruct (dict_get Z.eqb c s2) as [sd2|] eqn:G2; [|discriminate].
        inversion E1. inversion E2. cbn [fst].
        destruct (Z.eq_dec c n) as [->|Hcn].
        -- rewrite !(dict_get_set_same Z.eqb Z.eqb_eq). congruence.
        -- now rewrite !(dict_get_set_other Z.eqb Z.eqb_eq).
      * rewrite (process_row_skipped (s1, cur) row Hh Ha) in E1.
        rewrite (process_row_skipped (s2, cur) row Hh Ha) in E2.
        inversion E1. inversion E2. assumption.
Qed.

Lemma process_rows_agree (df : list Row) (st1 st2 : Steps * option Z) (n : Z) :
  wf st1 -> wf st2 -> snd st1 = snd st2 ->
  dict_get Z.eqb n (fst st1) = dict_get Z.eqb n (fst st2) ->
  exists st1' st2',
    process_rows st1 df = Some st1' /\ process_rows st2 df = Some st2'
    /\ dict_get Z.eqb n (fst st1') = dict_get Z.eqb n (fst st2').
Proof.
  revert st1 st2. induction df as [|row df IH]; intros st1 st2 W1 W2 Hc Hg.
  - exists st1, st2. simpl. auto.
  - destruct (process_row_agree row n W1 W2 Hc Hg)
      as [a [b [E1 [E2 [Wa [Wb [Hc' Hg']]]]]]].
    cbn [process_rows]. rewrite E1, E2. now apply IH.
Qed.

End Segments.

Section Builder.
Context {U : UnicodeDB}.

Lemma subs_of_sub_rows (n : Z) (seg : list Row) :
  n <> 0 -> (forall r, In r seg -> header_of r = None) ->
  subs_of n seg = sub_rows n seg.
Proof.
  intros Hn. induction seg as [|row seg IH]; intros Hno; auto.
  unfold subs_of, sub_rows in *. cbn [flat_map]. rewrite IH.
  - f_equal. unfold accepted. rewrite (Hno row) by now left.
    destruct (Level row); auto. unfold truthy.
    destruct (Z.eqb_spec n 0); [contradiction|].
    destruct (opt_int_eqb (StepNum row) (Some n)); auto.
  - intros r Hr. apply Hno. now right.
Qed.

Lemma header_of_nonzero (row : Row) (n : Z) : header_of row = Some n -> n <> 0.
Proof.
  unfold header_of. destruct (is_step (Level row)); [|discriminate].
  intros H. now apply truthy_Some in H.
Qed.

(** The state after a header row for [n]: [n] is open and its entry is the
    fresh one. *)
Lemma process_rows_to_header (pre : list Row) (h : Row) (n : Z) :
  header_of h = Some n ->
  exists st,
    process_rows ([], None) (pre ++ [h]) = Some st /\ wf st /\ snd st = Some n
    /\ dict_get Z.eqb n (fst st) = Some (header_data h n).
Proof.
  intros Hh. destruct (process_rows_wf pre wf_init) as [[steps cur] [E W]].
  destruct (process_row_wf h W) as [st [E1 W1]].
  exists st. split.
  { rewrite process_rows_app, E. cbn [process_rows]. now rewrite E1. }
  rewrite (process_row_header _ _ _ Hh) in E1. inversion E1. subst st.
  cbn [fst snd]. split; [exact W1|]. split; [reflexivity|].
  apply (dict_get_set_same Z.eqb Z.eqb_eq).
Qed.

End Builder.

(** ** The builder: headers and sub-steps *)



Section Loaded.
Context {U : UnicodeDB}.

Lemma load_data_columns (csv : list RawRow) (r : Row) :
  In r (load_data csv) -> parse_step (STT r) = (StepNum r, Level r, SubStep r).
Proof.
  unfold load_data. intros H. apply in_map_iff in H. destruct H as [x [Hx _]].
  subst r. unfold add_columns.
  destruct (parse_step (raw_STT x)) as [[n lv] sub] eqn:E. exact E.
Qed.

Lemma parse_step_header (stt : option pystr) (n : option Z)
      (sub : option (option Z * option Z)) :
  parse_step stt = (n, Some LStep, sub) ->
  sub = None
  /\ exists s g, stt = Some s /\ search_header (upper (strip s)) = Some g
                 /\ n = Some (int g).
Proof.
  unfold parse_step. destruct stt as [s|]; [|discriminate].
  destruct (contains BUOC (upper (strip s))).
  - destruct (search_header (upper (strip s))) as [g|] eqn:E; [|discriminate].
    intros H. inversion H. split; auto. exists s, g. auto.
  - destruct (startswith_B (upper (strip s))); [|discriminate].
    destruct (match_sub (upper (strip s))) as [[[g1 g2] g3]|]; discriminate.
Qed.

Lemma header_of_loaded (r : Row) (n : Z) :
  parse_step (STT r) = (StepNum r, Level r, SubStep r) ->
  header_of r = Some n <->
  parse_step (STT r) = (Some n, Some LStep, None) /\ n <> 0.
Proof.
  intros Hp. unfold header_of, is_step. split.
  - destruct (Level r) as [[|k]|] eqn:L; try discriminate.
    intros T. apply truthy_Some in T. destruct T as [T T0].
    rewrite T in Hp. destruct (parse_step_header _ Hp) as [Hs _].
    rewrite Hp, Hs. auto.
  - intros [H H0]. rewrite H in Hp. inversion Hp.
    apply truthy_Some. auto.
Qed.

End Loaded.





(** ** Durations *)

Lemma strip_prefix_Some (p s r : pystr) : strip_prefix p s = Some r -> s = p ++ r.
Proof.
  revert s. induction p as [|a p IH]; intros s; simpl.
  - intros H. now inversion H.
  - destruct s as [|b s]; [discriminate|].
    destruct (N.eqb_spec a b); [|discriminate].
    intros H. subst b. now rewrite (IH _ H).
Qed.

Lemma strip_prefix_app (p r : pystr) : strip_prefix p (p ++ r) = Some r.
Proof.
  induction p as [|a p IH]; simpl; auto. now rewrite N.eqb_refl.
Qed.

Section Durations.
Context {U : UnicodeDB}.

Lemma spaces_ngay_sound (s : pystr) :
  spaces_ngay s = true ->
  exists ws rest, s = ws ++ NGAY ++ rest /\ all_of isspace ws.
Proof.
  assert (Hhere : forall t, is_not_None (strip_prefix NGAY t) = true ->
                            exists ws rest, t = ws ++ NGAY ++ rest /\ all_of isspace ws).
  { intros t H. destruct (strip_prefix NGAY t) as [r|] eqn:E; [|discriminate].
    exists [], r. split; [exact (strip_prefix_Some _ _ E) | reflexivity]. }
  induction s as [|c s IH]; cbn [spaces_ngay]; auto.
  destruct (isspace c) eqn:Hc; auto.
  destruct (spaces_ngay s); auto.
  intros _. destruct (IH eq_refl) as [ws [rest [E A]]].
  exists (c :: ws), rest. split.
  - simpl. now rewrite E.
  - unfold all_of. simpl. now rewrite Hc.
Qed.

Lemma spaces_ngay_complete (ws rest : pystr) :
  all_of isspace ws -> spaces_ngay (ws ++ NGAY ++ rest) = true.
Proof.
  unfold all_of. induction ws as [|c ws IH]; intros H.
  - cbn [app].
    assert (Hp : is_not_None (strip_prefix NGAY (NGAY ++ rest)) = true)
      by now rewrite strip_prefix_app.
    destruct (NGAY ++ rest) as [|c t]; cbn [spaces_ngay]; auto.
    destruct (isspace c); auto. destruct (spaces_ngay t); auto.
  - simpl in H. apply andb_true_iff in H. destruct H as [Hc H].
    cbn [app spaces_ngay]. rewrite Hc, (IH H). reflexivity.
Qed.

Lemma digits_spaces_ngay_sound (s g : pystr) :
  digits_spaces_ngay s = Some g ->
  exists ws rest,
    s = g ++ ws ++ NGAY ++ rest /\ g <> [] /\ all_of isdecimal g /\ all_of isspace ws.
Proof.
  revert g. induction s as [|c s IH]; intros g; cbn [digits_spaces_ngay].
  - discriminate.
  - destruct (isdecimal c) eqn:Hc; [|discriminate].
    destruct (digits_spaces_ngay s) as [g'|].
    + intros H. inversion H. subst g.
      destruct (IH g' eq_refl) as [ws [rest [E [_ [D A]]]]].
      exists ws, rest. split; [simpl; now rewrite E|].
      split; [discriminate|]. split; auto.
      unfold all_of. simpl. now rewrite Hc.
    + destruct (spaces_ngay s) eqn:Hs; [|discriminate].
      intros H. inversion H. subst g.
      destruct (spaces_ngay_sound _ Hs) as [ws [rest [E A]]].
      exists ws, rest. split; [simpl; now rewrite E|].
      split; [discriminate|]. split; auto.
      unfold all_of. simpl. now rewrite Hc.
Qed.

Context {L : UnicodeLaws U}.

Lemma tail_not_decimal (ws rest : pystr) :
  all_of isspace ws -> digits_spaces_ngay (ws ++ NGAY ++ rest) = None.
Proof.
  unfold all_of. destruct ws as [|c ws]; intros H.
  - change (([] : pystr) ++ NGAY ++ rest) with (110%N :: lit "gày" ++ rest).
    cbn [digits_spaces_ngay]. now rewrite n_not_decimal.
  - simpl in H. apply andb_true_iff in H. destruct H as [Hc _].
    cbn [app digits_spaces_ngay]. now rewrite (space_not_decimal _ Hc).
Qed.

Lemma digits_spaces_ngay_complete (g ws rest : pystr) :
  g <> [] -> all_of isdecimal g -> all_of isspace ws ->
  digits_spaces_ngay (g ++ ws ++ NGAY ++ rest) = Some g.
Proof.
  unfold all_of at 1. induction g as [|c g IH]; intros Hne Hg Hws.
  - contradiction.
  - simpl in Hg. apply andb_true_iff in Hg. destruct Hg as [Hc Hg].
    cbn [app digits_spaces_ngay]. rewrite Hc.
    destruct g as [|c' g'].
    + cbn [app]. rewrite (tail_not_decimal _ Hws), (spaces_ngay_complete _ Hws).
      reflexivity.
    + rewrite IH; auto. discriminate.
Qed.

Lemma findall_first_leftmost (i : nat) (s g : pystr) :
  day_pattern_at s i g ->
  (forall j g', (j < i)%nat -> ~ day_pattern_at s j g') ->
  findall_first s = Some g.
Proof.
  revert s. induction i as [|i IH]; intros s [ws [rest [E [Hne [D A]]]]] Hfirst.
  - cbn [skipn] in E. subst s.
    destruct g as [|c g]; [contradiction|].
    cbn [app findall_first].
    change (c :: g ++ ws ++ NGAY ++ rest) with ((c :: g) ++ ws ++ NGAY ++ rest).
    now rewrite digits_spaces_ngay_complete.
  - destruct s as [|c s].
    { cbn in E. destruct g; [contradiction | discriminate]. }
    cbn [skipn] in E.
    assert (H0 : digits_spaces_ngay (c :: s) = None).
    { destruct (digits_spaces_ngay (c :: s)) as [g0|] eqn:E0; auto.
      exfalso. apply (Hfirst 0%nat g0); [lia|].
      destruct (digits_spaces_ngay_sound _ E0) as [ws0 [r0 H0]].
      exists ws0, r0. exact H0. }
    cbn [findall_first]. cbn [findall_first] in IH. rewrite H0.
    apply IH.
    + exists ws, rest. auto.
    + intros j g' Hj [ws' [r' P]]. apply (Hfirst (S j) g'); [lia|].
      exists ws', r'. exact P.
Qed.

Lemma findall_first_sound (s g : pystr) :
  findall_first s = Some g -> exists i, day_pattern_at s i g.
Proof.
  induction s as [|c s IH].
  - cbn. discriminate.
  - cbn [findall_first].
    destruct (digits_spaces_ngay (c :: s)) as [g0|] eqn:E0.
    + intros H. inversion H. subst g0. exists 0%nat.
      destruct (digits_spaces_ngay_sound _ E0) as [ws0 [r0 H0]].
      exists ws0, r0. exact H0.
    + intros H. destruct (IH H) as [i [ws [r P]]].
      exists (S i), ws, r. exact P.
Qed.

Lemma int_nonneg (g : pystr) : all_of isdecimal g -> 0 <= int g.
Proof.
  unfold int, all_of.
  assert (H : forall acc, 0 <= acc -> forallb isdecimal g = true ->
                          0 <= fold_left (fun a c => a * 10 + todecimal c) g acc).
  { induction g as [|c g IH]; intros acc Hacc Hg; simpl; auto.
    simpl in Hg. apply andb_true_iff in Hg. destruct Hg as [Hc Hg].
    apply IH; auto. pose proof (todecimal_nonneg _ Hc). lia. }
  apply H. lia.
Qed.

Lemma extract_days_nonneg (text : option pystr) : 0 <= extract_days text.
Proof.
  unfold extract_days. destruct text as [[|c t]|]; try lia.
  destruct (findall_first (lower (c :: t))) as [g|] eqn:E; [|lia].
  destruct (findall_first_sound _ E) as [i [ws [r [_ [_ [D _]]]]]].
  now apply int_nonneg.
Qed.

End Durations.

Section DictAppend.
Variables (K V : Type) (eqb : K -> K -> bool).

Lemma dict_get_app (k : K) (a b : dict K V) :
  dict_get eqb k (a ++ b)
  = match dict_get eqb k a with
    | Some v => Some v
    | None => dict_get eqb k b
    end.
Proof.
  induction a as [|[k' v'] a IH]; simpl; auto. destruct (eqb k k'); auto.
Qed.

End DictAppend.

Section Totals.
Context {U : UnicodeDB}.

Lemma step_total_sum (sd : StepData) : step_total sd = sum (durations sd).
Proof.
  unfold step_total, durations, sum.
  assert (H : forall l acc,
             fold_left (fun total substep => total + extract_days (Some (thoi_gian substep))) l acc
             = acc + fold_right Z.add 0
                       (map (fun substep => extract_days (Some (thoi_gian substep))) l)).
  { induction l as [|x l IH]; intros acc; cbn [fold_left map fold_right]; [lia|].
    rewrite IH. lia. }
  rewrite H. lia.
Qed.

Lemma calculate_total_days_get (steps : Steps) (n : Z) :
  NoDup (dict_keys steps) ->
  dict_get Z.eqb n (calculate_total_days steps)
  = option_map step_total (dict_get Z.eqb n steps).
Proof.
  unfold calculate_total_days.
  induction steps as [|[k v] steps IH] using rev_ind; intros Hnd; auto.
  rewrite fold_left_app. cbn [fold_left fst snd].
  unfold dict_keys in Hnd. rewrite map_app in Hnd. cbn [map fst] in Hnd.
  apply NoDup_remove in Hnd. rewrite app_nil_r in Hnd. destruct Hnd as [Hnd Hk].
  rewrite dict_get_app. cbn [dict_get].
  destruct (Z.eq_dec n k) as [->|Hne].
  - rewrite (dict_get_set_same Z.eqb Z.eqb_eq), Z.eqb_refl.
    destruct (dict_get Z.eqb k steps) eqn:G; auto.
    exfalso. apply Hk. apply (dict_get_In Z.eqb Z.eqb_eq).
    unfold dict_mem. now rewrite G.
  - rewrite (dict_get_set_other Z.eqb Z.eqb_eq) by congruence.
    rewrite (IH Hnd). destruct (Z.eqb_spec n k); [contradiction|].
    destruct (dict_get Z.eqb n steps); auto.
Qed.

End Totals.

Lemma latin_laws : UnicodeLaws latin_db.
Proof.
  split.
  - intros c. cbn [isspace isdecimal latin_db].
    unfold latin_isspace, latin_isdecimal. intros H.
    destruct (N.leb_spec 48 c); cbn [andb]; auto.
    destruct (N.leb_spec c 57); auto. exfalso.
    repeat (rewrite orb_true_iff in H || rewrite andb_true_iff in H).
    rewrite ?N.leb_le, ?N.eqb_eq in H. lia.
  - reflexivity.
  - intros c. cbn [isdecimal todecimal latin_db].
    unfold latin_isdecimal, latin_todecimal. intros H.
    apply andb_true_iff in H. rewrite !N.leb_le in H. lia.
Qed.



(** ** Classification of the code cell *)

Section Classify.
Context {U : UnicodeDB}.

Lemma span_app (f : char -> bool) (g rest : pystr) :
  all_of f g -> ~ starts_with f rest -> span f (g ++ rest) = (g, rest).
Proof.
  unfold all_of. induction g as [|c g IH]; intros Hg Hr.
  - destruct rest as [|c r]; auto. cbn [app span].
    destruct (f c) eqn:E; auto. exfalso. apply Hr. exact E.
  - simpl in Hg. apply andb_true_iff in Hg. destruct Hg as [Hc Hg].
    cbn [app span]. now rewrite Hc, IH.
Qed.

Lemma digits1_app (g rest : pystr) :
  g <> [] -> all_of isdecimal g -> ~ starts_with isdecimal rest ->
  digits1 (g ++ rest) = Some (g, rest).
Proof.
  intros Hne Hg Hr. unfold digits1. rewrite span_app; auto.
  destruct g; [contradiction | reflexivity].
Qed.

Lemma digits1_none (s : pystr) : ~ starts_with isdecimal s -> digits1 s = None.
Proof.
  intros H. unfold digits1. destruct s as [|c s]; auto. cbn [span].
  destruct (isdecimal c) eqn:E; auto. exfalso. apply H. exact E.
Qed.

Lemma dot_group_none (s : pystr) : no_group s -> dot_group s = None.
Proof.
  intros [_ H]. unfold dot_group. destruct s as [|c s]; auto.
  destruct (N.eqb_spec c ch_dot); auto. subst c.
  apply digits1_none. now apply H.
Qed.

Lemma dot_group_app (g rest : pystr) :
  g <> [] -> all_of isdecimal g -> ~ starts_with isdecimal rest ->
  dot_group (ch_dot :: g ++ rest) = Some (g, rest).
Proof.
  intros. unfold dot_group. rewrite N.eqb_refl. now apply digits1_app.
Qed.

Lemma parse_step_sub (s : pystr) :
  contains BUOC (upper (strip s)) = false ->
  parse_step (Some s)
  = match match_sub (upper (strip s)) with
    | Some (g1, g2, g3) =>
        (Some (int g1),
         Some (LSub (List.length (filter is_not_None
                                    [option_map int g2; option_map int g3]))),
         Some (option_map int g2, option_map int g3))
    | None => (None, None, None)
    end.
Proof.
  intros H. unfold parse_step. rewrite H.
  destruct (startswith_B (upper (strip s))) eqn:E; auto.
  unfold match_sub. destruct (upper (strip s)) as [|c t]; auto.
  cbn [startswith_B] in E. now rewrite E.
Qed.

Lemma parse_step_level (stt : option pystr) (n : option Z) (k : nat)
      (sub : option (option Z * option Z)) :
  parse_step stt = (n, Some (LSub k), sub) ->
  exists sub1 sub2,
    sub = Some (sub1, sub2)
    /\ k = List.length (filter is_not_None [sub1; sub2])
    /\ (k <= 2)%nat.
Proof.
  unfold parse_step. destruct stt as [s|]; [|discriminate].
  destruct (contains BUOC (upper (strip s))).
  - destruct (search_header (upper (strip s))); discriminate.
  - destruct (startswith_B (upper (strip s))); [|discriminate].
    destruct (match_sub (upper (strip s))) as [[[g1 g2] g3]|]; [|discriminate].
    intros H. inversion H. exists (option_map int g2), (option_map int g3).
    split; auto. split; auto.
    destruct g2, g3; cbn; lia.
Qed.

End Classify.

(** C1, as the code has it: a code cell that after trimming and uppercasing
    is [B], an integer and no dot-group is classified at level [sub0], and
    the row is appended to the open step when that is its number; with one
    or two dot-groups the level is [sub1] or [sub2]; the level of a sub-step
    row is never above 2; the sub-step carries the trimmed code cell, not
    uppercased. *)
Theorem sub_level_counts_dot_groups {U : UnicodeDB} (s g1 tail : pystr) :
  isdecimal ch_dot = false ->
  upper (strip s) = ch_B :: g1 ++ tail ->
  contains BUOC (upper (strip s)) = false ->
  g1 <> [] -> all_of isdecimal g1 ->
  (no_group tail ->
   parse_step (Some s) = (Some (int g1), Some (LSub 0), Some (None, None))
   /\ forall raw steps sd,
       raw_STT raw = Some s -> int g1 <> 0 ->
       dict_get Z.eqb (int g1) steps = Some sd ->
       exists info,
         process_row (steps, Some (int g1)) (add_columns raw)
         = Some (dict_set Z.eqb (int g1) (append_substep sd info) steps, Some (int g1))
         /\ code info = strip s /\ sub_level info = LSub 0)
  /\ (forall g2 rest,
         tail = ch_dot :: g2 ++ rest -> g2 <> [] -> all_of isdecimal g2 ->
         no_group rest ->
         parse_step (Some s)
         = (Some (int g1), Some (LSub 1), Some (Some (int g2), None)))
  /\ (forall g2 g3 rest,
         tail = ch_dot :: g2 ++ ch_dot :: g3 ++ rest ->
         g2 <> [] -> all_of isdecimal g2 -> g3 <> [] -> all_of isdecimal g3 ->
         ~ starts_with isdecimal rest ->
         parse_step (Some s)
         = (Some (int g1), Some (LSub 2), Some (Some (int g2), Some (int g3))))
  /\ (forall stt n k sub,
         parse_step stt = (n, Some (LSub k), sub) -> (k <= 2)%nat)
  /\ (forall row lv, code (substep_info row lv) = strip (str_cell (STT row))).
Proof.
  intros Hdot Hs Hb Hne Hg.
  assert (Hnd : forall t, ~ starts_with isdecimal (ch_dot :: t)).
  { intros t H. cbn in H. congruence. }
  split; [|split; [|split; [|split]]].
  - intros Hno.
    assert (Hp : parse_step (Some s)
                 = (Some (int g1), Some (LSub 0), Some (None, None))).
    { rewrite (parse_step_sub _ Hb), Hs. unfold match_sub.
      rewrite N.eqb_refl, (digits1_app tail Hne Hg (proj1 Hno)).
      now rewrite (dot_group_none Hno). }
    split; [exact Hp|].
    intros raw steps sd Hraw Hz Hget.
    exists (substep_info (add_columns raw) (LSub 0)).
    split; [|split; [|reflexivity]].
    + rewrite (process_row_accepted steps (Some (int g1)) (add_columns raw)
                 (c:=int g1) (lv:=LSub 0)).
      * now rewrite Hget.
      * unfold accepted, header_of, add_columns. rewrite Hraw, Hp.
        cbn [is_step Level StepNum]. unfold truthy.
        destruct (Z.eqb_spec (int g1) 0); [contradiction|].
        cbn [opt_int_eqb]. now rewrite Z.eqb_refl.
    + unfold add_columns. rewrite Hraw, Hp. reflexivity.
  - intros g2 rest Ht Hne2 Hg2 Hno.
    rewrite (parse_step_sub _ Hb), Hs, Ht. unfold match_sub.
    rewrite N.eqb_refl, (digits1_app _ Hne Hg (Hnd _)).
    rewrite (dot_group_app rest Hne2 Hg2 (proj1 Hno)).
    now rewrite (dot_group_none Hno).
  - intros g2 g3 rest Ht Hne2 Hg2 Hne3 Hg3 Hr.
    rewrite (parse_step_sub _ Hb), Hs, Ht. unfold match_sub.
    rewrite N.eqb_refl, (digits1_app _ Hne Hg (Hnd _)).
    rewrite (dot_group_app _ Hne2 Hg2 (Hnd _)).
    now rewrite (dot_group_app rest Hne3 Hg3 Hr).
  - intros stt n k sub H.
    destruct (parse_step_level _ H) as [s1 [s2 [_ [_ Hk]]]]. exact Hk.
  - reflexivity.
Qed.

(** C1 fails on the bare code [B5]: it is given level [sub0] and, read while
    step 5 is open, becomes a sub-step of step 5. *)
Lemma bare_code_is_substep :
  @parse_step latin_db (Some (lit "B5")) = (Some 5, Some (LSub 0), Some (None, None))
  /\ exists sd info,
      @process_steps latin_db (load_data bare_code_csv) = Some [(5, sd)]
      /\ substeps sd = [info]
      /\ code info = lit "B5"
      /\ sub_level info = LSub 0.
Proof.
  split; [reflexivity|].
  eexists. eexists. split; [reflexivity|]. repeat split.
Qed.

Lemma sub_level_witness :
  @isdecimal latin_db ch_dot = false
  /\ @parse_step latin_db (Some (lit " b5 ")) = (Some 5, Some (LSub 0), Some (None, None))
  /\ @parse_step latin_db (Some (lit "b5.1")) = (Some 5, Some (LSub 1), Some (Some 1, None))
  /\ @parse_step latin_db (Some (lit "b5.1.2"))
     = (Some 5, Some (LSub 2), Some (Some 1, Some 2)).
Proof.
  assert (Hend : @no_group latin_db []).
  { split; [intros H; exact H | discriminate]. }
  split; [reflexivity|].
  split; [|split].
  - destruct (@sub_level_counts_dot_groups latin_db (lit " b5 ") (lit "5") [])
      as [H _]; [reflexivity | reflexivity | reflexivity | discriminate | reflexivity |].
    apply (H Hend).
  - destruct (@sub_level_counts_dot_groups latin_db (lit "b5.1") (lit "5") (lit ".1"))
      as [_ [H _]]; [reflexivity | reflexivity | reflexivity | discriminate | reflexivity |].
    apply (H (lit "1") []); [reflexivity | discriminate | reflexivity | exact Hend].
  - destruct (@sub_level_counts_dot_groups latin_db (lit "b5.1.2") (lit "5") (lit ".1.2"))
      as [_ [_ [H _]]]; [reflexivity | reflexivity | reflexivity | discriminate | reflexivity |].
    apply (H (lit "1") (lit "2") []);
      [reflexivity | discriminate | reflexivity | discriminate | reflexivity | exact (proj1 Hend)].
Defined.

(** ** Normalisation of the cells *)

Section Cells.
Context {U : UnicodeDB}.

Lemma all_of_app (f : char -> bool) (a b : pystr) :
  all_of f (a ++ b) <-> all_of f a /\ all_of f b.
Proof. unfold all_of. rewrite forallb_app. apply andb_true_iff. Qed.

Lemma all_of_rev (f : char -> bool) (a : pystr) : all_of f a -> all_of f (rev a).
Proof.
  unfold all_of. rewrite !forallb_forall. intros H x Hx.
  apply H. now apply in_rev.
Qed.

Lemma lstrip_spec (s : pystr) :
  exists a, s = a ++ lstrip s /\ all_of isspace a /\ ~ starts_with isspace (lstrip s).
Proof.
  induction s as [|c s [a [E [A N]]]].
  - exists []. repeat split. intros H. exact H.
  - cbn [lstrip]. destruct (isspace c) eqn:Hc.
    + exists (c :: a). split; [simpl; now rewrite <- E|]. split; auto.
      unfold all_of. simpl. now rewrite Hc.
    + exists []. repeat split. cbn. congruence.
Qed.

Lemma strip_trimmed (s : pystr) : trimmed (Some s) (strip s).
Proof.
  unfold trimmed, strip, rstrip.
  destruct (lstrip_spec s) as [a [Ea [Aa Na]]].
  destruct (lstrip_spec (rev (lstrip s))) as [b [Eb [Ab Nb]]].
  set (t := lstrip s) in *. set (u := lstrip (rev t)) in *.
  assert (Et : t = rev u ++ rev b).
  { rewrite <- rev_app_distr, <- Eb. now rewrite rev_involutive. }
  exists a, (rev b). split; [now rewrite <- Et|].
  split; [exact Aa|]. split; [now apply all_of_rev|]. split.
  - intros H. apply Na. rewrite Et. destruct (rev u); [destruct H | exact H].
  - unfold ends_with. now rewrite rev_involutive.
Qed.

Lemma none_of_rev (f : char -> bool) (a : pystr) : none_of f a -> none_of f (rev a).
Proof. unfold none_of. apply all_of_rev. Qed.

Lemma split_from_words (s w : pystr) :
  none_of isspace w -> words (rev w ++ s) (split_from w s).
Proof.
  revert w. induction s as [|c s IH]; intros w Hw.
  - cbn [split_from]. destruct w as [|x w]; [constructor|].
    apply words_word; auto using none_of_rev, words_nil.
    intros H. apply (f_equal (@List.length _)) in H.
    rewrite length_rev in H. discriminate.
  - cbn [split_from]. destruct (isspace c) eqn:Hc.
    + assert (Hs : words (c :: s) (split_from [] s)).
      { apply words_space; auto. apply (IH [] eq_refl). }
      destruct w as [|x w]; [exact Hs|].
      apply words_word; auto using none_of_rev; try (right; exact Hc).
      intros H. apply (f_equal (@List.length _)) in H.
      rewrite length_rev in H. discriminate.
    + replace (rev w ++ c :: s) with (rev (c :: w) ++ s)
        by (simpl; now rewrite <- app_assoc).
      apply IH. unfold none_of in *. simpl. now rewrite Hc.
Qed.

Lemma collapse_collapsed (s : pystr) : collapsed (Some s) (collapse (strip s)).
Proof.
  exists (strip s), (split (strip s)). split; [apply strip_trimmed|].
  split; [apply (split_from_words (strip s) (w:=[])); reflexivity | reflexivity].
Qed.

Lemma trimmed_blank (s v : pystr) :
  all_of isspace s -> trimmed (Some s) v -> v = [].
Proof.
  intros Hs [a [b [E [_ [_ [N _]]]]]]. destruct v as [|c v]; auto.
  exfalso. apply N. subst s.
  apply all_of_app in Hs. destruct Hs as [_ Hs].
  apply all_of_app in Hs. destruct Hs as [Hs _].
  unfold all_of in Hs. simpl in Hs. apply andb_true_iff in Hs. apply Hs.
Qed.

Lemma words_of_nil (l : list pystr) : words [] l -> l = [].
Proof.
  intros H. remember [] as e eqn:He.
  destruct H as [|c s l Hc Hw|w s l Hne Hn Hs Hw]; auto; [discriminate|].
  destruct w; [contradiction | discriminate].
Qed.

Lemma collapsed_blank (s v : pystr) :
  all_of isspace s -> collapsed (Some s) v -> v = [].
Proof.
  intros Hs [t [l [T [W E]]]].
  rewrite (trimmed_blank Hs T) in W. now rewrite (words_of_nil W) in E.
Qed.

End Cells.

(** C8, as the code has it: the sub-step made from an accepted row has an
    empty field for a missing or blank cell; its content is the trimmed cell
    with every run of whitespace replaced by one space; its five other
    fields (unit, legal basis, duration, progress basis, note) are the cell
    trimmed of surrounding whitespace and nothing more. *)
Theorem substep_fields_normalized {U : UnicodeDB}
        (steps : Steps) (cur : option Z) (row : Row)
        (c : Z) (lv : level) (sd : StepData) :
  accepted cur row = Some (c, lv) ->
  dict_get Z.eqb c steps = Some sd ->
  exists info,
    process_row (steps, cur) row
    = Some (dict_set Z.eqb c (append_substep sd info) steps, cur)
    /\ collapsed (NoiDung row) (content info)
    /\ trimmed (DonViThucHien row) (don_vi info)
    /\ trimmed (CanCu row) (sub_can_cu info)
    /\ trimmed (ThoiGian row) (thoi_gian info)
    /\ trimmed (CanCuTienDo row) (sub_can_cu_tien_do info)
    /\ trimmed (GhiChu row) (ghi_chu info)
    /\ (forall s v, all_of isspace s ->
                    (trimmed (Some s) v -> v = []) /\ (collapsed (Some s) v -> v = [])).
Proof.
  intros Ha Hg. exists (substep_info row lv).
  assert (T : forall cell, trimmed cell (stripped cell)).
  { intros [s|]; [apply strip_trimmed | reflexivity]. }
  split; [now rewrite (process_row_accepted steps cur row Ha), Hg|].
  split.
  { cbn [substep_info content]. destruct (NoiDung row) as [s|].
    - apply collapse_collapsed.
    - reflexivity. }
  repeat (split; [apply T|]).
  intros s v Hs. split; [now apply trimmed_blank | now apply collapsed_blank].
Qed.

(** C8 fails on the unit cell: its inner double space is kept. *)
Lemma unit_not_collapsed :
  exists sd info,
    @process_steps latin_db (load_data unit_csv) = Some [(1, sd)]
    /\ substeps sd = [info]
    /\ don_vi info = lit "Sở  Xây dựng"
    /\ don_vi info <> @collapse latin_db (lit " Sở  Xây dựng ")
    /\ content info = lit "Soạn tờ trình".
Proof.
  eexists. eexists. split; [reflexivity|].
  split; [reflexivity|]. split; [reflexivity|]. split; [discriminate | reflexivity].
Qed.

Lemma substep_fields_witness :
  accepted (Some 1) (nth 1 (load_data unit_csv) open_header) = Some (1, LSub 1)
  /\ exists info,
      @process_row latin_db ([(1, @header_data latin_db open_header 1)], Some 1)
        (nth 1 (load_data unit_csv) open_header)
      = Some (dict_set Z.eqb 1
                (append_substep (@header_data latin_db open_header 1) info)
                [(1, @header_data latin_db open_header 1)], Some 1)
      /\ @collapsed latin_db (Some (lit " Soạn  tờ trình ")) (content info)
      /\ @trimmed latin_db (Some (lit " Sở  Xây dựng ")) (don_vi info)
      /\ @trimmed latin_db (Some (lit "5  ngày")) (thoi_gian info)
      /\ @trimmed latin_db None (ghi_chu info).
Proof.
  assert (Ha : accepted (Some 1) (nth 1 (load_data unit_csv) open_header)
               = Some (1, LSub 1)) by (vm_compute; reflexivity).
  split; [exact Ha|].
  destruct (@substep_fields_normalized latin_db
              [(1, @header_data latin_db open_header 1)] (Some 1)
              (nth 1 (load_data unit_csv) open_header) 1 (LSub 1)
              (@header_data latin_db open_header 1) Ha)
    as [info [E [C [D [_ [T [_ [G _]]]]]]]]; [vm_compute; reflexivity|].
  exists info. split; [exact E|]. split; [exact C|]. split; [exact D|].
  split; [exact T | exact G].
Defined.

(** ** The status store *)

Lemma json_load_snoc (o : JsonObject) (k : pystr) (v : StatusEntry) :
  json_load (o ++ [(k, v)]) = dict_set pykey_eqb (KStr k) v (json_load o).
Proof. unfold json_load. now rewrite fold_left_app. Qed.

(** What [json.load] gives for a name is the last member with that name. *)
Lemma json_load_get (o : JsonObject) (name : pystr) :
  dict_get pykey_eqb (KStr name) (json_load o) = last_member name o.
Proof.
  unfold last_member. induction o as [|[k v] o IH] using rev_ind; auto.
  rewrite json_load_snoc, rev_app_distr. cbn [rev app dict_get].
  destruct (str_eqb name k) eqn:E.
  - apply str_eqb_eq in E. subst k.
    apply (dict_get_set_same pykey_eqb pykey_eqb_eq).
  - rewrite (dict_get_set_other pykey_eqb pykey_eqb_eq); auto.
    intros H. inversion H. subst k. rewrite str_eqb_refl in E. discriminate.
Qed.

(** A dictionary read from the file has no [int] key. *)
Lemma json_load_no_int (o : JsonObject) (n : Z) :
  dict_get pykey_eqb (KInt n) (json_load o) = None.
Proof.
  induction o as [|[k v] o IH] using rev_ind; auto.
  rewrite json_load_snoc.
  rewrite (dict_get_set_other pykey_eqb pykey_eqb_eq); auto. discriminate.
Qed.

Lemma dict_set_absent (K V : Type) (eqb : K -> K -> bool) (k : K) (v : V)
      (d : dict K V) :
  dict_mem eqb k d = false -> dict_set eqb k v d = d ++ [(k, v)].
Proof.
  unfold dict_mem. induction d as [|[k' v'] d IH]; simpl; auto.
  destruct (eqb k k'); [discriminate|]. intros H. now rewrite IH.
Qed.

(** A dictionary whose keys are all strings comes back as it was. *)
Lemma json_round_trip_str_keys (d : StatusMap) :
  NoDup (dict_keys d) ->
  (forall k, In k (dict_keys d) -> exists s, k = KStr s) ->
  json_load (json_dump d) = d.
Proof.
  induction d as [|[k v] d IH] using rev_ind; intros Hnd Hstr; auto.
  unfold json_dump. rewrite map_app. cbn [map fst snd].
  destruct (Hstr k) as [s ->].
  { unfold dict_keys. rewrite map_app. apply in_or_app. right. now left. }
  cbn [json_key]. rewrite json_load_snoc.
  unfold dict_keys in Hnd. rewrite map_app in Hnd. cbn [map fst] in Hnd.
  apply NoDup_remove in Hnd. rewrite app_nil_r in Hnd. destruct Hnd as [Hnd Hk].
  fold (json_dump d). rewrite IH; auto.
  - apply dict_set_absent.
    destruct (dict_mem pykey_eqb (KStr s) d) eqn:E; auto.
    apply (dict_get_In pykey_eqb pykey_eqb_eq) in E. contradiction.
  - intros k' Hk'. apply Hstr. unfold dict_keys. rewrite map_app.
    apply in_or_app. now left.
Qed.

Lemma set_default_get (k k' : pykey) (d : StatusMap) :
  dict_get pykey_eqb k' (set_default k d)
  = if pykey_eqb k k'
    then match dict_get pykey_eqb k' d with
         | Some e => Some e
         | None => Some default_entry
         end
    else dict_get pykey_eqb k' d.
Proof.
  unfold set_default, dict_mem.
  destruct (pykey_eqb k k') eqn:E.
  - apply pykey_eqb_eq in E. subst k'.
    destruct (dict_get pykey_eqb k d) eqn:G; auto.
    apply (dict_get_set_same pykey_eqb pykey_eqb_eq).
  - destruct (dict_get pykey_eqb k d); auto.
    apply (dict_get_set_other pykey_eqb pykey_eqb_eq).
    intros H. subst k'. rewrite (proj2 (pykey_eqb_eq k k) eq_refl) in E.
    discriminate.
Qed.

(** After the loop over the step numbers, a number that had no entry has
    the default one. *)
Lemma init_step_status_default (keys : list Z) (d : StatusMap) (n : Z) :
  In n keys ->
  dict_get pykey_eqb (KInt n) d = None
  \/ dict_get pykey_eqb (KInt n) d = Some default_entry ->
  dict_get pykey_eqb (KInt n)
    (fold_left (fun d step_num => set_default (KInt step_num) d) keys d)
  = Some default_entry.
Proof.
  revert d. induction keys as [|k keys IH]; intros d Hin Hd; [destruct Hin|].
  cbn [fold_left].
  assert (Hk : dict_get pykey_eqb (KInt n) (set_default (KInt k) d) = None
               \/ dict_get pykey_eqb (KInt n) (set_default (KInt k) d)
                  = Some default_entry).
  { rewrite set_default_get. cbn [pykey_eqb].
    destruct (k =? n); destruct Hd as [-> | ->]; auto. }
  destruct (in_dec Z.eq_dec n keys) as [Hn|Hn]; [now apply IH|].
  destruct Hin as [->|Hin]; [|contradiction].
  assert (Hnow : dict_get pykey_eqb (KInt n) (set_default (KInt n) d)
                 = Some default_entry).
  { rewrite set_default_get. cbn [pykey_eqb]. rewrite Z.eqb_refl.
    destruct Hd as [-> | ->]; auto. }
  clear IH Hk Hd. revert Hnow. generalize (set_default (KInt n) d).
  induction keys as [|k keys IH]; intros d' Hd'; auto.
  cbn [fold_left]. apply IH.
  - intros H. apply Hn. now right.
  - rewrite set_default_get. cbn [pykey_eqb].
    destruct (Z.eqb_spec k n); [|exact Hd'].
    exfalso. apply Hn. now left.
Qed.

(** C9, as the code has it: loading validates nothing.  For every name the
    restored maps hold the last entry the file has for it, with its state as
    it stands; the label of a state which is not one of the three is the
    state itself. *)
Theorem load_keeps_state_as_stored (data : StatusData) (name st : pystr) :
  dict_get pykey_eqb (KStr name) (fst (load_checklist_status (JsonFile data)))
  = last_member name (get_or_empty (json_step_status data))
  /\ dict_get pykey_eqb (KStr name) (snd (load_checklist_status (JsonFile data)))
     = last_member name (get_or_empty (json_substep_status data))
  /\ load_checklist_status NoFile = ([], [])
  /\ load_checklist_status BadFile = ([], [])
  /\ get_status_label not_started = label_not_started
  /\ get_status_label in_progress = label_in_progress
  /\ get_status_label completed = label_completed
  /\ (valid_state st \/ get_status_label st = st).
Proof.
  cbn [load_checklist_status fst snd]. rewrite !json_load_get.
  repeat (split; [reflexivity|]).
  unfold get_status_label, status_map, valid_state. cbn [dict_get].
  destruct (str_eqb st not_started) eqn:E1; [apply str_eqb_eq in E1; auto|].
  destruct (str_eqb st in_progress) eqn:E2; [apply str_eqb_eq in E2; auto|].
  destruct (str_eqb st completed) eqn:E3; [apply str_eqb_eq in E3; auto|].
  now right.
Qed.

(** C9 fails on a file whose entry for step 1 has the state [done]: the
    entry is restored as it is, and shown with that text. *)
Lemma odd_state_accepted :
  dict_get pykey_eqb (KStr (str_of_int 1)) (fst (load_checklist_status odd_file))
  = Some odd_entry
  /\ ~ valid_state (status odd_entry)
  /\ status odd_entry <> not_started
  /\ get_status_label (status odd_entry) = status odd_entry.
Proof.
  split; [reflexivity|]. split; [|split; [discriminate | reflexivity]].
  intros [H|[H|H]]; discriminate.
Qed.

Lemma save_keeps_session (writable : bool) (w : World) :
  session (fst (save_checklist_status writable w)) = session w.
Proof. unfold save_checklist_status. now destruct writable. Qed.

Lemma load_no_int (f : StatusFile) (n : Z) :
  dict_get pykey_eqb (KInt n) (fst (load_checklist_status f)) = None.
Proof. destruct f; cbn; auto. apply json_load_no_int. Qed.

(** C2 on the code: what is saved under a step number comes back under the
    text of that number, so no restored map has an entry for a step number;
    here the entry of step 1, while the sub-step map, whose keys are
    strings, comes back as it was. *)
Theorem round_trip_renames_step_keys (w : World) (n : Z) :
  dict_get pykey_eqb (KInt n)
    (fst (load_checklist_status (file (fst (save_checklist_status true w)))))
  = None
  /\ step_status one_done_session = Some [(KInt 1, done_entry)]
  /\ load_checklist_status
       (file (fst (save_checklist_status true
                     {| session := one_done_session; file := NoFile |})))
     = ([(KStr (str_of_int 1), done_entry)],
        get_or_empty (substep_status one_done_session)).
Proof.
  split; [apply load_no_int|]. split; reflexivity.
Qed.

(** C3 on the code: in a session that has not loaded yet, every step of the
    model gets the default entry under its number, whatever the file holds;
    with steps 1, 2, 3 and a file that has step 1 completed, the store ends
    with four keys, the stored entry under the text [1] and a default one
    under the number 1, and the file written back gives the name [1] twice,
    so that the next load reads the default entry. *)
Theorem init_defaults_every_step (writable : bool) (steps : Steps) (f : StatusFile) :
  Forall (fun n =>
            dict_get pykey_eqb (KInt n)
              (get_or_empty
                 (step_status
                    (session (init_checklist_status writable steps
                                {| session := fresh_session; file := f |}))))
            = Some default_entry)
    (dict_keys steps)
  /\ step_status
       (session (init_checklist_status true three_steps
                   {| session := fresh_session; file := stored_file |}))
     = Some [(KStr (str_of_int 1), done_entry); (KInt 1, default_entry);
             (KInt 2, default_entry); (KInt 3, default_entry)]
  /\ dict_get pykey_eqb (KStr (str_of_int 1))
       (fst (load_checklist_status
               (file (init_checklist_status true three_steps
                        {| session := fresh_session; file := stored_file |}))))
     = Some default_entry.
Proof.
  split; [|split; reflexivity].
  apply Forall_forall. intros n Hn.
  unfold init_checklist_status. rewrite save_keeps_session.
  cbn [session file fresh_session checklist_loaded].
  destruct (load_checklist_status f) as [a b] eqn:E.
  cbn [step_status get_or_empty]. unfold init_step_status.
  apply init_step_status_default; auto.
  left. replace a with (fst (load_checklist_status f)) by now rewrite E.
  apply load_no_int.
Qed.

(** C4 on the code: every entry of the step map is counted, also those of
    keys that are not steps of the model: with two steps and a file that
    has three completed entries the result is 150; where the map has one
    entry per step of the model, 1 of 4 gives 25, no step gives 0 and 3 of 3
    gives 100; the division and the product are those of floats, and 29 of
    100 gives 28. *)
Theorem progress_counts_every_entry :
  calculate_overall_progress two_steps
    (session (init_checklist_status true two_steps
                {| session := fresh_session; file := stale_file |}))
  = 150
  /\ calculate_overall_progress (fst (tracked 4 1)) (snd (tracked 4 1)) = 25
  /\ calculate_overall_progress (fst (tracked 0 0)) (snd (tracked 0 0)) = 0
  /\ calculate_overall_progress (fst (tracked 3 3)) (snd (tracked 3 3)) = 100
  /\ calculate_overall_progress (fst (tracked 100 29)) (snd (tracked 100 29)) = 28.
Proof. repeat split; vm_compute; reflexivity. Qed.

(** * Further properties of the code *)

(** ** The model [process_steps] builds *)

Section Model.
Context {U : UnicodeDB}.

Lemma existsb_eqb_In (n : Z) (l : list Z) :
  existsb (Z.eqb n) l = true <-> In n l.
Proof.
  rewrite existsb_exists. split.
  - intros [x [Hx E]]. apply Z.eqb_eq in E. now subst.
  - intros H. exists n. split; auto. apply Z.eqb_refl.
Qed.

Lemma dict_mem_existsb (V : Type) (n : Z) (d : dict Z V) :
  dict_mem Z.eqb n d = existsb (Z.eqb n) (dict_keys d).
Proof.
  unfold dict_mem. induction d as [|[k v] d IH]; auto.
  cbn [dict_get dict_keys map fst existsb]. destruct (n =? k); auto.
Qed.

Lemma process_row_keys_eq (st st' : Steps * option Z) (row : Row) :
  wf st -> process_row st row = Some st' ->
  dict_keys (fst st')
  = seen_after (dict_keys (fst st))
      (match header_of row with Some n => [n] | None => [] end).
Proof.
  destruct st as [steps cur]. intros [_ Hcur]. cbn [fst snd] in *.
  destruct (header_of row) as [n|] eqn:Hh.
  - rewrite (process_row_header _ _ _ Hh). intros H. inversion H. cbn [fst].
    unfold seen_after. cbn [fold_left].
    now rewrite (dict_keys_set Z.eqb), dict_mem_existsb.
  - unfold seen_after. cbn [fold_left].
    destruct (accepted cur row) as [[c lv]|] eqn:Ha.
    + rewrite (process_row_accepted _ _ _ Ha).
      destruct (dict_get Z.eqb c steps) as [sd|] eqn:G; [|discriminate].
      intros H. inversion H. cbn [fst]. rewrite (dict_keys_set Z.eqb).
      unfold dict_mem. now rewrite G.
    + rewrite (process_row_skipped (steps, cur) row Hh Ha).
      intros H. now inversion H.
Qed.

Lemma process_rows_keys_eq (df : list Row) (st st' : Steps * option Z) :
  wf st -> process_rows st df = Some st' ->
  dict_keys (fst st') = seen_after (dict_keys (fst st)) (headers df).
Proof.
  revert st. induction df as [|row df IH]; intros st W; cbn [process_rows].
  - intros H. now inversion H.
  - destruct (process_row_wf row W) as [st1 [E1 W1]]. rewrite E1. intros H.
    rewrite (IH _ W1 H), (process_row_keys_eq row W E1).
    unfold headers, seen_after. cbn [flat_map]. now rewrite fold_left_app.
Qed.

Lemma seen_after_In (l seen : list Z) (n : Z) :
  In n (seen_after seen l) <-> In n seen \/ In n l.
Proof.
  revert seen. unfold seen_after.
  induction l as [|x l IH]; intros seen; cbn [fold_left].
  - simpl. tauto.
  - rewrite IH. destruct (existsb (Z.eqb x) seen) eqn:E.
    + apply existsb_eqb_In in E. simpl. split; [tauto|].
      intros [H|[H|H]]; auto. subst. auto.
    + rewrite in_app_iff. simpl. tauto.
Qed.

Lemma headers_In (df : list Row) (n : Z) :
  In n (headers df) <-> exists row, In row df /\ header_of row = Some n.
Proof.
  unfold headers. rewrite in_flat_map. split.
  - intros [row [Hr Hn]]. exists row. split; auto.
    destruct (header_of row); [|destruct Hn].
    destruct Hn as [->|[]]. reflexivity.
  - intros [row [Hr Hn]]. exists row. split; auto. rewrite Hn. now left.
Qed.

Lemma from_rows_more (seen more : list Row) (n : Z) (sd : StepData) :
  from_rows seen n sd -> from_rows (seen ++ more) n sd.
Proof.
  intros [[h [Hh Hd]] Hs]. split.
  - exists h. split; auto. apply in_or_app. now left.
  - intros info Hi. destruct (Hs info Hi) as [row [lv [Hr Hp]]].
    exists row, lv. split; auto. apply in_or_app. now left.
Qed.

Lemma process_row_from_rows (seen : list Row) (st st' : Steps * option Z)
      (row : Row) :
  (forall n sd, dict_get Z.eqb n (fst st) = Some sd -> from_rows seen n sd) ->
  process_row st row = Some st' ->
  forall n sd, dict_get Z.eqb n (fst st') = Some sd -> from_rows (seen ++ [row]) n sd.
Proof.
  destruct st as [steps cur]. cbn [fst]. intros Hinv.
  assert (Hlast : In row (seen ++ [row])) by (apply in_or_app; right; now left).
  destruct (header_of row) as [m|] eqn:Hh.
  - rewrite (process_row_header _ _ _ Hh). intros H n sd. inversion H. cbn [fst].
    destruct (Z.eq_dec m n) as [->|Hne].
    + rewrite (dict_get_set_same Z.eqb Z.eqb_eq). intros E. inversion E. split.
      * exists row. auto.
      * intros info [].
    + rewrite (dict_get_set_other Z.eqb Z.eqb_eq) by assumption.
      intros E. apply from_rows_more. now apply Hinv.
  - destruct (accepted cur row) as [[c lv]|] eqn:Ha.
    + rewrite (process_row_accepted _ _ _ Ha).
      destruct (dict_get Z.eqb c steps) as [sd0|] eqn:G; [|discriminate].
      intros H n sd. inversion H. cbn [fst].
      destruct (Z.eq_dec c n) as [->|Hne].
      * rewrite (dict_get_set_same Z.eqb Z.eqb_eq). intros E. inversion E.
        destruct (from_rows_more [row] (Hinv n sd0 G)) as [Hd Hs].
        split; [exact Hd|].
        cbn [append_substep substeps]. intros info Hi.
        apply in_app_or in Hi. destruct Hi as [Hi|[<-|[]]]; [now apply Hs|].
        destruct (accepted_open _ _ Ha) as [_ [_ [Hn [Hl _]]]].
        exists row, lv. auto.
      * rewrite (dict_get_set_other Z.eqb Z.eqb_eq) by assumption.
        intros E. apply from_rows_more. now apply Hinv.
    + rewrite (process_row_skipped (steps, cur) row Hh Ha).
      intros H n sd. inversion H. cbn [fst]. intros E.
      apply from_rows_more. now apply Hinv.
Qed.

Lemma process_rows_from_rows (df seen : list Row) (st st' : Steps * option Z) :
  (forall n sd, dict_get Z.eqb n (fst st) = Some sd -> from_rows seen n sd) ->
  process_rows st df = Some st' ->
  forall n sd, dict_get Z.eqb n (fst st') = Some sd -> from_rows (seen ++ df) n sd.
Proof.
  revert seen st. induction df as [|row df IH]; intros seen st Hinv; cbn [process_rows].
  - intros H. inversion H. subst. rewrite app_nil_r. exact Hinv.
  - destruct (process_row st row) as [st1|] eqn:E1; [|discriminate].
    intros H n sd G.
    replace (seen ++ row :: df) with ((seen ++ [row]) ++ df)
      by (rewrite <- app_assoc; reflexivity).
    apply (IH (seen ++ [row]) st1); auto.
    intros n0 sd0 G0. eapply process_row_from_rows; eauto.
Qed.

End Model.

(** X1: [process_steps] returns a model for every table (the lookup of the
    open step never fails); the keys of the model are the non-zero numbers
    of the header rows, each once, in the order in which they first occur. *)
Theorem process_steps_keys {U : UnicodeDB} (df : list Row) :
  exists steps,
    process_steps df = Some steps
    /\ dict_keys steps = first_seen (headers df)
    /\ NoDup (dict_keys steps)
    /\ ~ In 0 (dict_keys steps)
    /\ forall n, In n (dict_keys steps)
                 <-> exists row, In row df /\ header_of row = Some n.
Proof.
  destruct (process_rows_wf df wf_init) as [st [E W]].
  exists (fst st). unfold process_steps. rewrite E.
  assert (K : dict_keys (fst st) = first_seen (headers df))
    by apply (process_rows_keys_eq df wf_init E).
  assert (M : forall n, In n (dict_keys (fst st))
                        <-> exists row, In row df /\ header_of row = Some n).
  { intros n. rewrite K. unfold first_seen. rewrite seen_after_In, headers_In.
    simpl. tauto. }
  split; [reflexivity|]. split; [exact K|]. split; [apply W|]. split; [|exact M].
  intros H. apply M in H. destruct H as [row [_ H]].
  now apply header_of_nonzero in H.
Qed.


Section TotalsKeys.
Context {U : UnicodeDB}.

Lemma calculate_total_days_keys (steps : Steps) :
  NoDup (dict_keys steps) ->
  dict_keys (calculate_total_days steps) = dict_keys steps.
Proof.
  unfold calculate_total_days.
  induction steps as [|[k v] steps IH] using rev_ind; intros Hnd; auto.
  rewrite fold_left_app. cbn [fold_left fst snd].
  unfold dict_keys in Hnd |- *. rewrite map_app in Hnd. cbn [map fst] in Hnd.
  apply NoDup_remove in Hnd. rewrite app_nil_r in Hnd. destruct Hnd as [Hnd Hk].
  fold (dict_keys (dict_set Z.eqb k (step_total v)
                     (fold_left (fun step_days item =>
                                   dict_set Z.eqb (fst item) (step_total (snd item)) step_days)
                        steps []))).
  rewrite (dict_keys_set Z.eqb), dict_mem_existsb.
  unfold dict_keys in IH |- *. rewrite (IH Hnd), map_app. cbn [map fst].
  destruct (existsb (Z.eqb k) (map fst steps)) eqn:E; auto.
  apply existsb_eqb_In in E. contradiction.
Qed.

End TotalsKeys.

(** X3: the totals [main] computes from the model, [calculate_total_days] of
    [process_steps], have the keys of the model in the same order, and under
    each key the sum of the durations read in the sub-steps of that step. *)
Theorem totals_follow_model {U : UnicodeDB} (df : list Row) :
  exists steps,
    process_steps df = Some steps
    /\ dict_keys (calculate_total_days steps) = dict_keys steps
    /\ forall n,
        dict_get Z.eqb n (calculate_total_days steps)
        = option_map (fun sd => sum (durations sd)) (dict_get Z.eqb n steps).
Proof.
  destruct (process_rows_wf df wf_init) as [[steps cur] [E [Hnd _]]].
  cbn [fst] in Hnd.
  exists steps. unfold process_steps. rewrite E. split; [reflexivity|]. split.
  - now apply calculate_total_days_keys.
  - intros n. rewrite (calculate_total_days_get steps n Hnd).
    destruct (dict_get Z.eqb n steps); auto.
    cbn [option_map]. now rewrite step_total_sum.
Qed.

(** ** The status store: what initialisation keeps and adds *)

Lemma pykey_eqb_sym (a b : pykey) : pykey_eqb a b = pykey_eqb b a.
Proof.
  destruct (pykey_eqb a b) eqn:E, (pykey_eqb b a) eqn:E'; auto.
  - apply pykey_eqb_eq in E. subst.
    rewrite (proj2 (pykey_eqb_eq b b) eq_refl) in E'. discriminate.
  - apply pykey_eqb_eq in E'. subst.
    rewrite (proj2 (pykey_eqb_eq a a) eq_refl) in E. discriminate.
Qed.

Lemma fold_set_default_get (keys : list pykey) (d : StatusMap) (k : pykey) :
  dict_get pykey_eqb k (fold_left (fun d x => set_default x d) keys d)
  = entry_after keys d k.
Proof.
  unfold entry_after. revert d.
  induction keys as [|x keys IH]; intros d; cbn [fold_left existsb].
  - destruct (dict_get pykey_eqb k d); auto.
  - rewrite IH, set_default_get, (pykey_eqb_sym k x).
    destruct (pykey_eqb x k); cbn [orb];
      destruct (dict_get pykey_eqb k d); auto.
Qed.

Lemma init_step_status_fold (steps : Steps) (d : StatusMap) :
  init_step_status steps d
  = fold_left (fun d x => set_default x d) (model_step_keys steps) d.
Proof.
  unfold init_step_status, model_step_keys. generalize (dict_keys steps).
  intros l. revert d. induction l as [|n l IH]; intros d; cbn; auto.
Qed.

Lemma init_substep_status_fold (steps : Steps) (d : StatusMap) :
  init_substep_status steps d
  = fold_left (fun d x => set_default x d) (model_substep_keys steps) d.
Proof.
  unfold init_substep_status, model_substep_keys. revert d.
  induction steps as [|[n sd] steps IH]; intros d; auto.
  cbn [fold_left flat_map fst snd]. rewrite fold_left_app, IH. f_equal.
  generalize (substeps sd). intros l. revert d.
  induction l as [|x l IHl]; intros d; cbn; auto.
Qed.

Lemma init_session (writable : bool) (steps : Steps) (w : World) :
  session (init_checklist_status writable steps w)
  = {| step_status := Some (init_step_status steps (fst (maps_before w)));
       substep_status := Some (init_substep_status steps (snd (maps_before w)));
       checklist_loaded := true |}.
Proof.
  unfold init_checklist_status, maps_before. rewrite save_keeps_session.
  cbn [session]. destruct (checklist_loaded (session w)) eqn:E.
  - cbn [step_status substep_status checklist_loaded fst snd]. now rewrite E.
  - destruct (load_checklist_status (file w)) as [a b]. reflexivity.
Qed.


Lemma set_default_present (k : pykey) (d : StatusMap) :
  dict_mem pykey_eqb k d = true -> set_default k d = d.
Proof. unfold set_default. now intros ->. Qed.

Lemma fold_set_default_present (keys : list pykey) (d : StatusMap) :
  (forall k, In k keys -> dict_mem pykey_eqb k d = true) ->
  fold_left (fun d x => set_default x d) keys d = d.
Proof.
  induction keys as [|x keys IH]; intros H; cbn [fold_left]; auto.
  rewrite set_default_present by (apply H; now left).
  apply IH. intros k Hk. apply H. now right.
Qed.

Lemma fold_set_default_twice (keys : list pykey) (d : StatusMap) :
  fold_left (fun d x => set_default x d) keys
    (fold_left (fun d x => set_default x d) keys d)
  = fold_left (fun d x => set_default x d) keys d.
Proof.
  apply fold_set_default_present. intros k Hk. unfold dict_mem.
  rewrite fold_set_default_get. unfold entry_after.
  destruct (dict_get pykey_eqb k d); auto.
  replace (existsb (pykey_eqb k) keys) with true; auto.
  symmetry. apply existsb_exists. exists k. split; auto.
  now apply pykey_eqb_eq.
Qed.

Lemma init_world_written (steps : Steps) (w : World) :
  init_checklist_status true steps w
  = {| session := session (init_checklist_status true steps w);
       file := JsonFile
                 {| json_step_status :=
                      Some (json_dump
                              (get_or_empty
                                 (step_status
                                    (session (init_checklist_status true steps w)))));
                    json_substep_status :=
                      Some (json_dump
                              (get_or_empty
                                 (substep_status
                                    (session (init_checklist_status true steps w))))) |} |}.
Proof. reflexivity. Qed.

(** X5: [init_checklist_status] run again on the state it left (as on every
    rerun of the page) changes nothing: neither the session nor, when both
    runs can write, the file. *)
Theorem init_twice (writable : bool) (steps : Steps) (w : World) :
  session (init_checklist_status writable steps
             (init_checklist_status writable steps w))
  = session (init_checklist_status writable steps w)
  /\ init_checklist_status true steps (init_checklist_status true steps w)
     = init_checklist_status true steps w.
Proof.
  assert (S : forall b1 b2,
             session (init_checklist_status b2 steps (init_checklist_status b1 steps w))
             = session (init_checklist_status b1 steps w)).
  { intros b1 b2. rewrite (init_session b2). unfold maps_before.
    rewrite !(init_session b1).
    cbn [step_status substep_status checklist_loaded get_or_empty fst snd].
    rewrite !init_step_status_fold, !init_substep_status_fold.
    now rewrite !fold_set_default_twice. }
  split; [apply S|].
  rewrite (init_world_written steps (init_checklist_status true steps w)).
  rewrite (S true true). symmetry. apply init_world_written.
Qed.

(** ** The status store: saving and loading *)

Lemma json_load_str_keyed (o : JsonObject) : str_keyed (json_load o).
Proof.
  induction o as [|[k v] o [Hnd Hstr]] using rev_ind.
  - split; [constructor | intros k []].
  - rewrite json_load_snoc. split.
    + apply dict_set_NoDup; auto. apply pykey_eqb_eq.
    + intros k' Hk'. rewrite (dict_keys_set pykey_eqb) in Hk'.
      destruct (dict_mem pykey_eqb (KStr k) (json_load o)); auto.
      apply in_app_or in Hk'. destruct Hk' as [Hk'|[<-|[]]]; eauto.
Qed.

Lemma load_str_keyed (f : StatusFile) :
  str_keyed (fst (load_checklist_status f))
  /\ str_keyed (snd (load_checklist_status f)).
Proof.
  assert (E : str_keyed []) by (split; [constructor | intros k []]).
  destruct f; cbn [load_checklist_status fst snd]; auto.
  split; apply json_load_str_keyed.
Qed.

(** X6: maps whose keys are all strings (the sub-step map, and any map that
    was read from the file) are restored by [load_checklist_status] exactly
    as [save_checklist_status] wrote them: same keys in the same order, same
    entries. *)
Theorem string_keyed_round_trip (w : World) (d1 d2 : StatusMap) :
  step_status (session w) = Some d1 ->
  substep_status (session w) = Some d2 ->
  str_keyed d1 -> str_keyed d2 ->
  load_checklist_status (file (fst (save_checklist_status true w))) = (d1, d2).
Proof.
  intros E1 E2 [N1 S1] [N2 S2].
  unfold save_checklist_status. cbn [fst file load_checklist_status].
  rewrite E1, E2. cbn [get_or_empty json_step_status json_substep_status].
  now rewrite !json_round_trip_str_keys.
Qed.

Lemma string_keyed_round_trip_witness :
  str_keyed (get_or_empty (step_status restored_session))
  /\ load_checklist_status
       (file (fst (save_checklist_status true
                     {| session := restored_session; file := NoFile |})))
     = (get_or_empty (step_status restored_session),
        get_or_empty (substep_status restored_session)).
Proof.
  assert (K1 : str_keyed (get_or_empty (step_status restored_session))).
  { split.
    - repeat constructor; simpl; intuition discriminate.
    - intros k [<-|[<-|[]]]; eexists; reflexivity. }
  assert (K2 : str_keyed (get_or_empty (substep_status restored_session))).
  { split.
    - repeat constructor; simpl; intuition discriminate.
    - intros k [<-|[]]; eexists; reflexivity. }
  split; [exact K1|].
  apply (@string_keyed_round_trip {| session := restored_session; file := NoFile |}
           _ _ eq_refl eq_refl K1 K2).
Defined.


(** ** Overall progress *)

Lemma float_of_ratio_same (n : Z) :
  0 < n -> float_of_ratio n n = {| mant := 2 ^ 52; expo := - 52 |}.
Proof.
  intros Hn. unfold float_of_ratio.
  destruct (Z.eqb_spec n 0); [lia|].
  rewrite Z.sub_diag.
  change (52 - 0) with 52. change (0 <=? 52) with true. cbn [fst snd].
  assert (Hq : n * 2 ^ 52 / n = 2 ^ 52)
    by (rewrite Z.mul_comm; apply Z.div_mul; lia).
  assert (Hr : (n * 2 ^ 52) mod n = 0)
    by (rewrite Z.mul_comm; apply Z.mod_mul; lia).
  rewrite Hq, Z.ltb_irrefl. change (0 <=? 52) with true. cbn [fst snd].
  rewrite Hq, Hr. change (2 * 0) with 0.
  destruct (Z.ltb_spec n 0); [lia|].
  destruct (Z.eqb_spec n 0); [lia|]. reflexivity.
Qed.

Lemma count_completed_none (l : list StatusEntry) (acc : Z) :
  Forall (fun e => status e <> completed) l ->
  fold_left (fun acc e => if is_completed e then acc + 1 else acc) l acc = acc.
Proof.
  intros H. revert acc. induction H as [|e l He Hl IH]; intros acc; auto.
  cbn [fold_left]. unfold is_completed at 2.
  destruct (str_eqb (status e) completed) eqn:E; [|apply IH].
  apply str_eqb_eq in E. contradiction.
Qed.

Lemma count_completed_all (l : list StatusEntry) (acc : Z) :
  Forall (fun e => status e = completed) l ->
  fold_left (fun acc e => if is_completed e then acc + 1 else acc) l acc
  = acc + Z.of_nat (List.length l).
Proof.
  intros H. revert acc. induction H as [|e l He Hl IH]; intros acc.
  - cbn. lia.
  - cbn [fold_left List.length]. unfold is_completed at 2.
    rewrite He, str_eqb_refl, IH. lia.
Qed.

(** X8: [calculate_overall_progress] is 0 when no entry of the step map is
    completed, and 100 when the step map has as many entries as the model has
    steps, at least one, and all are completed. *)
Theorem progress_none_and_all (steps : Steps) (s : Session) (d : StatusMap) :
  step_status s = Some d ->
  (Forall (fun e => status e <> completed) (dict_values d) ->
   calculate_overall_progress steps s = 0)
  /\ (steps <> [] -> List.length d = List.length steps ->
      Forall (fun e => status e = completed) (dict_values d) ->
      calculate_overall_progress steps s = 100).
Proof.
  intros E. unfold calculate_overall_progress. rewrite E. split.
  - intros H. rewrite (count_completed_none 0 H).
    destruct (Z.of_nat (List.length steps) =? 0); reflexivity.
  - intros Hne Hlen H. rewrite (count_completed_all 0 H).
    unfold dict_values. rewrite length_map, Hlen. cbn [Z.add].
    destruct (Z.eqb_spec (Z.of_nat (List.length steps)) 0) as [Hz|Hz].
    + destruct steps; [contradiction | discriminate].
    + unfold true_div. rewrite float_of_ratio_same by lia. reflexivity.
Qed.

Lemma progress_none_and_all_witness :
  step_status (snd (tracked 3 3)) = Some (get_or_empty (step_status (snd (tracked 3 3))))
  /\ calculate_overall_progress (fst (tracked 3 3)) (snd (tracked 3 3)) = 100
  /\ calculate_overall_progress (fst (tracked 3 0)) (snd (tracked 3 0)) = 0.
Proof.
  split; [reflexivity|]. split.
  - apply (proj2 (@progress_none_and_all (fst (tracked 3 3)) (snd (tracked 3 3))
                    _ eq_refl)).
    + discriminate.
    + reflexivity.
    + repeat constructor.
  - apply (proj1 (@progress_none_and_all (fst (tracked 3 0)) (snd (tracked 3 0))
                    _ eq_refl)).
    repeat constructor; discriminate.
Defined.

(** ** The metadata lists of the uploaded files *)

Lemma find_app_first (A : Type) (f : A -> bool) (a b : list A) :
  find f (a ++ b) = match find f a with Some x => Some x | None => find f b end.
Proof. induction a as [|x a IH]; simpl; auto. destruct (f x); auto. Qed.

Lemma find_and_remove_spec (name : pystr) (l : list FileInfo)
      (fi : option FileInfo) (upd : list FileInfo) :
  find_and_remove name l fi upd
  = (match last_named name l with Some i => Some i | None => fi end,
     upd ++ others name l).
Proof.
  unfold last_named, others. revert fi upd.
  induction l as [|info l IH]; intros fi upd; cbn [find_and_remove rev filter].
  - now rewrite app_nil_r.
  - rewrite find_app_first. cbn [find].
    destruct (str_eqb (filename info) name) eqn:E; rewrite IH; cbn [negb].
    + destruct (find _ (rev l)); auto.
    + rewrite <- app_assoc. destruct (find _ (rev l)); auto.
Qed.

Lemma last_named_In (name : pystr) (l : list FileInfo) :
  (exists i, last_named name l = Some i /\ In i l /\ filename i = name)
  <-> In name (map filename l).
Proof.
  unfold last_named. split.
  - intros [i [_ [Hi Hn]]]. apply in_map_iff. eauto.
  - intros H. apply in_map_iff in H. destruct H as [x [Hx Hin]].
    destruct (find (fun info => str_eqb (filename info) name) (rev l)) as [i|] eqn:F.
    + apply find_some in F. destruct F as [Hi Hn].
      exists i. split; auto. split; [now apply in_rev | now apply str_eqb_eq].
    + exfalso. apply in_rev in Hin. pose proof (find_none _ _ F x Hin) as Hf.
      cbn beta in Hf. rewrite Hx, str_eqb_refl in Hf. discriminate.
Qed.

Lemma last_named_None (name : pystr) (l : list FileInfo) :
  last_named name l = None <-> ~ In name (map filename l).
Proof.
  split.
  - intros H Hin. apply last_named_In in Hin. destruct Hin as [i [E _]]. congruence.
  - intros H. destruct (last_named name l) as [i|] eqn:E; auto.
    exfalso. apply H. unfold last_named in E. apply find_some in E.
    destruct E as [Hi Hn]. apply in_map_iff. exists i.
    split; [now apply str_eqb_eq | now apply in_rev].
Qed.

Lemma others_not_named (name : pystr) (l : list FileInfo) :
  ~ In name (map filename (others name l)).
Proof.
  unfold others. intros H. apply in_map_iff in H. destruct H as [x [Hx Hin]].
  apply filter_In in Hin. destruct Hin as [_ Hn]. subst name.
  rewrite str_eqb_refl in Hn. discriminate.
Qed.

Lemma others_all (name : pystr) (l : list FileInfo) :
  ~ In name (map filename l) -> others name l = l.
Proof.
  unfold others. induction l as [|x l IH]; intros H; auto.
  cbn [filter]. destruct (str_eqb (filename x) name) eqn:E.
  - apply str_eqb_eq in E. exfalso. apply H. left. exact E.
  - cbn [negb]. rewrite IH; auto. intros Hin. apply H. now right.
Qed.

Section Tree.

Lemma unlink_get_other (p q : pystr) (fs : FileSystem) :
  p <> q -> dict_get str_eqb p (unlink q fs) = dict_get str_eqb p fs.
Proof.
  intros Hne. induction fs as [|[k c] fs IH]; auto. cbn [unlink dict_get].
  destruct (str_eqb q k) eqn:E.
  - apply str_eqb_eq in E. subst k.
    now rewrite (eqb_diff str_eqb str_eqb_eq Hne).
  - cbn [dict_get]. destruct (str_eqb p k); auto.
Qed.

Lemma unlink_keys_incl (q : pystr) (fs : FileSystem) (p : pystr) :
  In p (dict_keys (unlink q fs)) -> In p (dict_keys fs).
Proof.
  induction fs as [|[k c] fs IH]; auto. cbn [unlink].
  destruct (str_eqb q k); cbn [dict_keys map fst].
  - intros H. now right.
  - intros [H|H]; [now left | right; now apply IH].
Qed.

Lemma unlink_NoDup (q : pystr) (fs : FileSystem) :
  NoDup (dict_keys fs) -> NoDup (dict_keys (unlink q fs)).
Proof.
  induction fs as [|[k c] fs IH]; auto. cbn [unlink dict_keys map fst].
  intros H. inversion H as [|x l Hk Hnd]. subst.
  destruct (str_eqb q k); auto. cbn [dict_keys map fst]. constructor; auto.
  intros Hin. apply Hk. now apply (unlink_keys_incl q).
Qed.

Lemma unlink_get_same (q : pystr) (fs : FileSystem) :
  NoDup (dict_keys fs) -> dict_get str_eqb q (unlink q fs) = None.
Proof.
  induction fs as [|[k c] fs IH]; auto. cbn [unlink dict_keys map fst].
  intros H. inversion H as [|x l Hk Hnd]. subst.
  destruct (str_eqb q k) eqn:E.
  - apply str_eqb_eq in E. subst k.
    destruct (dict_get str_eqb q fs) eqn:G; auto.
    exfalso. apply Hk. apply (dict_get_In str_eqb str_eqb_eq).
    unfold dict_mem. now rewrite G.
  - cbn [dict_get]. rewrite E. now apply IH.
Qed.

Lemma unlink_if_exists_get (p q : pystr) (fs : FileSystem) :
  NoDup (dict_keys fs) ->
  dict_get str_eqb p (unlink_if_exists q fs)
  = if str_eqb p q then None else dict_get str_eqb p fs.
Proof.
  intros Hnd. unfold unlink_if_exists, exists_, dict_mem.
  destruct (str_eqb p q) eqn:E.
  - apply str_eqb_eq in E. subst p.
    destruct (dict_get str_eqb q fs) eqn:G; auto. now apply unlink_get_same.
  - destruct (dict_get str_eqb q fs); auto. apply unlink_get_other.
    intros H. subst. rewrite str_eqb_refl in E. discriminate.
Qed.

Lemma unlink_if_exists_NoDup (q : pystr) (fs : FileSystem) :
  NoDup (dict_keys fs) -> NoDup (dict_keys (unlink_if_exists q fs)).
Proof.
  intros H. unfold unlink_if_exists. destruct (exists_ q fs); auto.
  now apply unlink_NoDup.
Qed.

End Tree.

Section StorageFacts.
Context {P : PathLib}.

Lemma load_file_metadata_set (dir : pystr) (l : list FileInfo) (fs : FileSystem) :
  load_file_metadata dir
    (dict_set str_eqb (joinpath dir metadata_json) (JsonList l) fs)
  = Some l.
Proof.
  unfold load_file_metadata. now rewrite (dict_get_set_same str_eqb str_eqb_eq).
Qed.

Lemma delete_step_template_file_eq (n : Z) (name dir : pystr) (fs : FileSystem) :
  delete_step_template_file n name dir fs
  = match dict_get str_eqb (joinpath dir metadata_json) fs with
    | Some (JsonList l) =>
        match last_named name l with
        | Some info =>
            (dict_set str_eqb (joinpath dir metadata_json) (JsonList (others name l))
               (unlink_if_exists (file_path info) fs), true)
        | None => (fs, false)
        end
    | _ => (fs, false)
    end.
Proof.
  unfold delete_step_template_file.
  destruct (dict_get str_eqb (joinpath dir metadata_json) fs) as [[l|]|]; auto.
  rewrite find_and_remove_spec. cbn [app]. destruct (last_named name l); auto.
Qed.

Lemma delete_file_info_eq (name dir : pystr) (fs : FileSystem) :
  delete_file_info name dir fs
  = match dict_get str_eqb (joinpath dir metadata_json) fs with
    | Some (JsonList l) =>
        match last_named name l with
        | Some info =>
            (dict_set str_eqb (joinpath dir metadata_json) (JsonList (others name l))
               (unlink_if_exists (joinpath dir (stem name ++ text_suffix))
                  (unlink_if_exists (file_path info) fs)), true)
        | None => (fs, false)
        end
    | _ => (fs, false)
    end.
Proof.
  unfold delete_file_info.
  destruct (dict_get str_eqb (joinpath dir metadata_json) fs) as [[l|]|]; auto.
  rewrite find_and_remove_spec. cbn [app]. destruct (last_named name l); auto.
  set (fs1 := unlink_if_exists (file_path f) fs).
  unfold get_saved_text_path.
  destruct (exists_ (joinpath dir (stem name ++ text_suffix)) fs1) eqn:E; auto.
  replace (unlink_if_exists (joinpath dir (stem name ++ text_suffix)) fs1) with fs1;
    auto.
  unfold unlink_if_exists. now rewrite E.
Qed.

End StorageFacts.

Lemma save_file_info_spec {P : PathLib}
        (new_id now name type dir : pystr) (fs : FileSystem) :
  match load_file_metadata dir fs with
  | None => save_file_info new_id now name type dir fs = None
  | Some l =>
      exists fs',
        save_file_info new_id now name type dir fs
        = Some (fs', {| file_id := new_id; filename := name; file_type := type;
                        upload_date := now; file_path := joinpath dir name |})
        /\ load_file_metadata dir fs'
           = Some (l ++ [{| file_id := new_id; filename := name; file_type := type;
                            upload_date := now; file_path := joinpath dir name |}])
        /\ forall p, p <> joinpath dir metadata_json ->
                     dict_get str_eqb p fs' = dict_get str_eqb p fs
  end.
Proof.
  unfold load_file_metadata, save_file_info.
  destruct (dict_get str_eqb (joinpath dir metadata_json) fs) as [[l|]|];
    auto; eexists; (split; [reflexivity|]);
    (split; [now rewrite (dict_get_set_same str_eqb str_eqb_eq)|]);
    intros p Hp; apply (dict_get_set_other str_eqb str_eqb_eq); congruence.
Qed.


(** X10: when the metadata list has records with the file name,
    [delete_file_info] returns [True]; the list loaded afterwards is the
    previous one without every record of that name, the others in their
    order; the file at the path of the last such record and the saved text of
    the name are gone (unless they are the metadata file itself), and no
    other file of the tree changes. *)
Theorem delete_file_info_removes {P : PathLib}
        (name dir : pystr) (fs : FileSystem) (l : list FileInfo) :
  NoDup (dict_keys fs) ->
  load_file_metadata dir fs = Some l ->
  In name (map filename l) ->
  exists fs' info,
    delete_file_info name dir fs = (fs', true)
    /\ last_named name l = Some info
    /\ load_file_metadata dir fs' = Some (others name l)
    /\ ~ In name (map filename (others name l))
    /\ (file_path info <> joinpath dir metadata_json ->
        exists_ (file_path info) fs' = false)
    /\ (joinpath dir (stem name ++ text_suffix) <> joinpath dir metadata_json ->
        get_saved_text_path name dir fs' = None)
    /\ forall p, p <> joinpath dir metadata_json -> p <> file_path info ->
                 p <> joinpath dir (stem name ++ text_suffix) ->
                 dict_get str_eqb p fs' = dict_get str_eqb p fs.
Proof.
  intros Hnd Hload Hin. rewrite delete_file_info_eq.
  unfold load_file_metadata in Hload.
  destruct (dict_get str_eqb (joinpath dir metadata_json) fs) as [[l0|]|] eqn:G;
    try discriminate.
  2:{ inversion Hload. subst l. destruct Hin. }
  inversion Hload. subst l0.
  apply last_named_In in Hin. destruct Hin as [info [E _]]. rewrite E.
  pose proof (unlink_if_exists_NoDup (file_path info) fs Hnd) as Hnd1.
  eexists. exists info. split; [reflexivity|]. split; [reflexivity|].
  split; [apply load_file_metadata_set|]. split; [apply others_not_named|].
  split; [|split].
  - intros Hp. unfold exists_, dict_mem.
    rewrite (dict_get_set_other str_eqb str_eqb_eq) by congruence.
    rewrite (unlink_if_exists_get _ _ _ Hnd1), (unlink_if_exists_get _ _ _ Hnd).
    rewrite str_eqb_refl. destruct (str_eqb _ _); reflexivity.
  - intros Hp. unfold get_saved_text_path, exists_, dict_mem.
    rewrite (dict_get_set_other str_eqb str_eqb_eq) by congruence.
    rewrite (unlink_if_exists_get _ _ _ Hnd1). now rewrite str_eqb_refl.
  - intros p H1 H2 H3.
    rewrite (dict_get_set_other str_eqb str_eqb_eq) by congruence.
    rewrite (unlink_if_exists_get _ _ _ Hnd1), (unlink_if_exists_get _ _ _ Hnd).
    now rewrite !(eqb_diff str_eqb str_eqb_eq) by assumption.
Qed.

Lemma delete_file_info_removes_witness :
  NoDup (dict_keys example_tree)
  /\ exists fs',
      @delete_file_info plain_paths (lit "a.pdf") (lit "uploaded_documents") example_tree
      = (fs', true)
      /\ @load_file_metadata plain_paths (lit "uploaded_documents") fs'
         = Some [example_info "11111111" "b.txt"]
      /\ exists_ (lit "uploaded_documents/a.pdf") fs' = false.
Proof.
  assert (Hnd : NoDup (dict_keys example_tree)).
  { repeat constructor; simpl; intuition discriminate. }
  split; [exact Hnd|].
  destruct (@delete_file_info_removes plain_paths (lit "a.pdf")
              (lit "uploaded_documents") example_tree _ Hnd eq_refl)
    as [fs' [info [E [L [M [_ [X _]]]]]]].
  - vm_compute. auto.
  - exists fs'. split; [exact E|]. split; [exact M|].
    vm_compute in L. inversion L. subst info. apply X. discriminate.
Defined.

(** X11: [delete_file_info] returns [True] exactly when the metadata file is
    a list with a record of the file name; whenever it does not, the tree is
    left as it was (no metadata file, a file that is not a list, or no such
    record). *)
Theorem delete_file_info_result {P : PathLib} (name dir : pystr) (fs : FileSystem) :
  (snd (delete_file_info name dir fs) = true
   <-> exists l, dict_get str_eqb (joinpath dir metadata_json) fs = Some (JsonList l)
                 /\ In name (map filename l))
  /\ (snd (delete_file_info name dir fs) = true
      \/ delete_file_info name dir fs = (fs, false)).
Proof.
  rewrite delete_file_info_eq.
  destruct (dict_get str_eqb (joinpath dir metadata_json) fs) as [[l|]|] eqn:G.
  - destruct (last_named name l) as [info|] eqn:E; cbn [snd]; split; auto.
    + split; auto. intros _. exists l. split; auto.
      apply last_named_In. unfold last_named in *. exists info.
      pose proof (find_some _ _ E) as [Hi Hn].
      split; auto. split; [now apply in_rev | now apply str_eqb_eq].
    + split; [discriminate|]. intros [l0 [E0 Hin]]. inversion E0. subst l0.
      apply last_named_None in E. contradiction.
  - cbn [snd]. split; auto. split; [discriminate|].
    intros [l [E _]]. discriminate.
  - cbn [snd]. split; auto. split; [discriminate|].
    intros [l [E _]]. discriminate.
Qed.

(** X12: deleting a second time does nothing: after [delete_file_info] a
    further [delete_file_info] of the same name returns [False] and leaves
    the tree unchanged. *)
Theorem delete_file_info_twice {P : PathLib} (name dir : pystr) (fs : FileSystem) :
  delete_file_info name dir (fst (delete_file_info name dir fs))
  = (fst (delete_file_info name dir fs), false).
Proof.
  rewrite (delete_file_info_eq name dir fs).
  destruct (dict_get str_eqb (joinpath dir metadata_json) fs) as [[l|]|] eqn:G;
    cbn [fst].
  - destruct (last_named name l) as [info|] eqn:E; cbn [fst].
    + rewrite delete_file_info_eq, (dict_get_set_same str_eqb str_eqb_eq).
      now rewrite (proj2 (last_named_None name (others name l))
                     (others_not_named name l)).
    + now rewrite delete_file_info_eq, G, E.
  - now rewrite delete_file_info_eq, G.
  - now rewrite delete_file_info_eq, G.
Qed.

(** X13: a record saved with [save_completed_file_info] under a name the
    list did not have is taken out again by [delete_completed_file]: the
    call returns [True] and the list loaded afterwards is the one from
    before the save. *)
Theorem save_then_delete_completed {P : PathLib}
        (new_id now name type dir : pystr) (step_num : Z)
        (substep_code : option pystr) (fs : FileSystem) (l : list FileInfo) :
  load_completed_file_metadata dir fs = Some l ->
  ~ In name (map filename l) ->
  exists fs1 info fs2,
    save_completed_file_info new_id now step_num name type dir substep_code fs
    = Some (fs1, info)
    /\ delete_completed_file step_num name dir substep_code fs1 = (fs2, true)
    /\ load_completed_file_metadata dir fs2 = Some l.
Proof.
  unfold load_completed_file_metadata, save_completed_file_info,
    delete_completed_file.
  intros Hload Hnew.
  pose proof (@save_file_info_spec P new_id now name type dir fs) as S.
  rewrite Hload in S. destruct S as [fs1 [E1 [L1 _]]].
  exists fs1. eexists. rewrite E1.
  rewrite delete_step_template_file_eq.
  unfold load_file_metadata in L1.
  destruct (dict_get str_eqb (joinpath dir metadata_json) fs1) as [[l1|]|];
    try discriminate.
  2:{ exfalso. inversion L1 as [H0]. destruct l; discriminate H0. }
  inversion L1. subst l1.
  unfold last_named. rewrite rev_app_distr. cbn [rev app find filename].
  rewrite str_eqb_refl.
  eexists. split; [reflexivity|]. split; [reflexivity|].
  rewrite load_file_metadata_set. f_equal.
  unfold others. rewrite filter_app. cbn [filter filename].
  rewrite str_eqb_refl. cbn [negb]. rewrite app_nil_r.
  now apply others_all.
Qed.

Lemma save_then_delete_completed_witness :
  @load_completed_file_metadata plain_paths (lit "uploaded_documents") example_tree
  = Some [example_info "0a1b2c3d" "a.pdf"; example_info "11111111" "b.txt";
          example_info "22222222" "a.pdf"]
  /\ exists fs1 info fs2,
      @save_completed_file_info plain_paths (lit "33333333") (lit "2024-01-02 09:00:00")
        4 (lit "c.docx") (lit "text/plain") (lit "uploaded_documents") None example_tree
      = Some (fs1, info)
      /\ @delete_completed_file plain_paths 4 (lit "c.docx") (lit "uploaded_documents")
           None fs1 = (fs2, true)
      /\ @load_completed_file_metadata plain_paths (lit "uploaded_documents") fs2
         = Some [example_info "0a1b2c3d" "a.pdf"; example_info "11111111" "b.txt";
                 example_info "22222222" "a.pdf"].
Proof.
  split; [reflexivity|].
  apply (@save_then_delete_completed plain_paths); [reflexivity|].
  vm_compute. intuition discriminate.
Defined.

(** X14: the four delete functions agree: [delete_step_template_file],
    [delete_substep_template_file] and [delete_completed_file] return what
    [delete_file_info] returns and leave the same metadata list; outside the
    saved text of the name, which only [delete_file_info] removes, they leave
    the same tree. *)
Theorem delete_functions_agree {P : PathLib}
        (n : Z) (code : pystr) (sub : option pystr) (name dir : pystr)
        (fs : FileSystem) :
  NoDup (dict_keys fs) ->
  delete_substep_template_file n code name dir fs
  = delete_step_template_file n name dir fs
  /\ delete_completed_file n name dir sub fs = delete_step_template_file n name dir fs
  /\ snd (delete_step_template_file n name dir fs) = snd (delete_file_info name dir fs)
  /\ load_file_metadata dir (fst (delete_step_template_file n name dir fs))
     = load_file_metadata dir (fst (delete_file_info name dir fs))
  /\ forall p, p <> joinpath dir (stem name ++ text_suffix) ->
               dict_get str_eqb p (fst (delete_step_template_file n name dir fs))
               = dict_get str_eqb p (fst (delete_file_info name dir fs)).
Proof.
  intros Hnd. split; [reflexivity|]. split; [reflexivity|].
  rewrite delete_step_template_file_eq, delete_file_info_eq.
  destruct (dict_get str_eqb (joinpath dir metadata_json) fs) as [[l|]|]; auto.
  destruct (last_named name l) as [info|]; auto. cbn [fst snd].
  split; [reflexivity|]. split; [now rewrite !load_file_metadata_set|].
  intros p Hp.
  destruct (list_eq_dec N.eq_dec (joinpath dir metadata_json) p) as [<-|Hm].
  - now rewrite !(dict_get_set_same str_eqb str_eqb_eq).
  - rewrite !(dict_get_set_other str_eqb str_eqb_eq) by assumption.
    rewrite (unlink_if_exists_get p (joinpath dir (stem name ++ text_suffix)) _
               (unlink_if_exists_NoDup (file_path info) fs Hnd)).
    now rewrite (eqb_diff str_eqb str_eqb_eq Hp).
Qed.

Lemma delete_functions_agree_witness :
  NoDup (dict_keys example_tree)
  /\ snd (@delete_completed_file plain_paths 1 (lit "a.pdf") (lit "uploaded_documents")
            None example_tree)
     = snd (@delete_file_info plain_paths (lit "a.pdf") (lit "uploaded_documents")
              example_tree).
Proof.
  assert (Hnd : NoDup (dict_keys example_tree)).
  { repeat constructor; simpl; intuition discriminate. }
  split; [exact Hnd|].
  destruct (@delete_functions_agree plain_paths 1 [] None (lit "a.pdf")
              (lit "uploaded_documents") example_tree Hnd) as [_ [E [S _]]].
  rewrite E. exact S.
Defined.

(** ** Trimming *)

Section Trim.
Context {U : UnicodeDB}.

Lemma lstrip_spaces (a t : pystr) : all_of isspace a -> lstrip (a ++ t) = lstrip t.
Proof.
  unfold all_of. induction a as [|c a IH]; intros H; auto.
  simpl in H. apply andb_true_iff in H. destruct H as [Hc H].
  cbn [app lstrip]. rewrite Hc. auto.
Qed.

Lemma lstrip_fixed (t : pystr) : ~ starts_with isspace t -> lstrip t = t.
Proof.
  destruct t as [|c t]; auto. cbn [starts_with lstrip].
  destruct (isspace c); auto. intros H. now destruct H.
Qed.

Lemma lstrip_blank (a : pystr) : all_of isspace a -> lstrip a = [].
Proof. intros H. rewrite <- (app_nil_r a). now rewrite lstrip_spaces. Qed.

(** The trimmed value of a cell is what [strip] gives. *)
Lemma trimmed_strip (s v : pystr) : trimmed (Some s) v -> v = strip s.
Proof.
  intros [a [b [E [A [B [N M]]]]]]. subst s. unfold strip, rstrip.
  rewrite (lstrip_spaces _ A).
  destruct v as [|c v].
  - cbn [app]. rewrite (lstrip_blank B). reflexivity.
  - rewrite (lstrip_fixed ((c :: v) ++ b) N).
    rewrite rev_app_distr, (lstrip_spaces _ (all_of_rev B)).
    rewrite (lstrip_fixed (rev (c :: v)) M). now rewrite rev_involutive.
Qed.

Lemma rstrip_spec (s : pystr) :
  exists b, s = rstrip s ++ b /\ all_of isspace b /\ ~ ends_with isspace (rstrip s).
Proof.
  unfold rstrip, ends_with. destruct (lstrip_spec (rev s)) as [b [E [A N]]].
  exists (rev b). split; [|split].
  - rewrite <- rev_app_distr, <- E. now rewrite rev_involutive.
  - now apply all_of_rev.
  - now rewrite rev_involutive.
Qed.

Lemma strip_app_space (s : pystr) (c : char) :
  isspace c = true -> strip (s ++ [c]) = strip s.
Proof.
  intros Hc. symmetry. apply trimmed_strip.
  destruct (strip_trimmed s) as [a [b [E [A [B [N M]]]]]].
  exists a, (b ++ [c]). split; [|split; [|split]]; auto.
  - rewrite E at 1. now rewrite <- !app_assoc.
  - apply all_of_app. split; auto. unfold all_of. simpl. now rewrite Hc.
Qed.

Lemma strip_rstrip (s : pystr) : strip (rstrip s) = strip s.
Proof.
  apply trimmed_strip.
  destruct (rstrip_spec s) as [b [E [B _]]].
  destruct (strip_trimmed (rstrip s)) as [a [b1 [E1 [A [B1 [N M]]]]]].
  exists a, (b1 ++ b). split; [|split; [|split]]; auto.
  - rewrite E at 1. rewrite E1 at 1. now rewrite <- !app_assoc.
  - apply all_of_app. now split.
Qed.

(** Trimming a line that sets the key to [key]. *)
Lemma strip_key_line (key : pystr) :
  env_chars -> strip (OPENAI_API_KEY_eq ++ key) = OPENAI_API_KEY_eq ++ rstrip key.
Proof.
  intros [_ [HO Heq]]. symmetry. apply trimmed_strip.
  destruct (rstrip_spec key) as [b [E [B M]]].
  exists [], b. split; [|split; [reflexivity|split; [exact B|split]]].
  - cbn [app]. rewrite <- app_assoc. now rewrite <- E.
  - cbn. congruence.
  - unfold ends_with in *. rewrite rev_app_distr.
    destruct (rev (rstrip key)) as [|c r]; [|exact M].
    unfold OPENAI_API_KEY_eq, ch_eq in *. cbn. congruence.
Qed.

Lemma key_line_is_key (key : pystr) :
  env_chars -> is_key_line (OPENAI_API_KEY_eq ++ key) = true.
Proof.
  intros H. unfold is_key_line, startswith.
  now rewrite (strip_key_line key H), strip_prefix_app.
Qed.

Lemma key_line_value (key : pystr) :
  env_chars ->
  option_map strip
    (split_once_second ch_eq (strip (OPENAI_API_KEY_eq ++ key)))
  = Some (strip key).
Proof.
  intros H. rewrite (strip_key_line key H).
  change (split_once_second ch_eq (OPENAI_API_KEY_eq ++ rstrip key))
    with (Some (rstrip key)).
  cbn [option_map]. now rewrite strip_rstrip.
Qed.

End Trim.

(** ** Reading and writing lines *)

Lemma no_newline_cons (c : char) (s : pystr) :
  no_newline (c :: s) <-> c <> ch_lf /\ c <> ch_cr /\ no_newline s.
Proof.
  unfold no_newline, none_of, is_newline. cbn [forallb].
  rewrite andb_true_iff, negb_true_iff, orb_false_iff, !N.eqb_neq. tauto.
Qed.

Lemma no_newline_app (a b : pystr) :
  no_newline (a ++ b) <-> no_newline a /\ no_newline b.
Proof. unfold no_newline, none_of. rewrite forallb_app. apply andb_true_iff. Qed.

Lemma no_newline_rev (a : pystr) : no_newline a -> no_newline (rev a).
Proof. apply none_of_rev. Qed.

(** A text without carriage return is read as it is. *)
Lemma translate_newlines_plain (s : pystr) :
  ~ In ch_cr s -> translate_newlines s = s.
Proof.
  induction s as [|c s IH]; intros H; auto. cbn [translate_newlines].
  destruct (N.eqb_spec c ch_cr) as [->|Hc].
  - exfalso. apply H. now left.
  - rewrite IH; auto. intros Hin. apply H. now right.
Qed.

Lemma translate_newlines_no_cr (s : pystr) : ~ In ch_cr (translate_newlines s).
Proof.
  assert (H : forall n s, (List.length s <= n)%nat -> ~ In ch_cr (translate_newlines s)).
  { clear s. induction n as [|n IH]; intros s Hs.
    - destruct s; [intros [] | simpl in Hs; lia].
    - destruct s as [|c s]; [intros []|]. cbn [translate_newlines].
      simpl in Hs.
      destruct (N.eqb_spec c ch_cr) as [->|Hc].
      + destruct s as [|c' s'].
        * intros [H|[]]. discriminate.
        * destruct (c' =? ch_lf)%N; intros [H|H]; try discriminate;
            revert H; apply IH; simpl in *; lia.
      + intros [H|H]; [congruence|]. revert H. apply IH. lia. }
  apply (H (List.length s)). lia.
Qed.

Lemma lines_from_line (body rest cur : pystr) :
  ~ In ch_lf body ->
  lines_from cur (body ++ ch_lf :: rest)
  = (rev cur ++ body ++ [ch_lf]) :: lines_from [] rest.
Proof.
  revert cur. induction body as [|c body IH]; intros cur H.
  - cbn [app lines_from]. rewrite N.eqb_refl. reflexivity.
  - cbn [app lines_from]. destruct (N.eqb_spec c ch_lf) as [->|Hc].
    + exfalso. apply H. now left.
    + rewrite IH by (intros Hin; apply H; now right).
      cbn [rev]. now rewrite <- !app_assoc.
Qed.

Lemma no_newline_In (s : pystr) : no_newline s -> ~ In ch_lf s /\ ~ In ch_cr s.
Proof.
  induction s as [|c s IH]; intros H; [split; intros []|].
  apply no_newline_cons in H. destruct H as [H1 [H2 H]].
  destruct (IH H) as [A B]. split; intros [E|E]; auto.
Qed.

(** Lines without line break that were written are read back, each with its
    line feed. *)
Lemma readlines_write_lines (ls : list pystr) :
  Forall no_newline ls ->
  readlines (write_lines ls) = map (fun line => line ++ [ch_lf]) ls.
Proof.
  intros H. unfold readlines. rewrite translate_newlines_plain.
  - unfold write_lines. induction H as [|l ls Hl Hls IH]; auto.
    cbn [map List.concat]. rewrite <- app_assoc. cbn [app].
    rewrite lines_from_line by (now apply no_newline_In). now rewrite IH.
  - unfold write_lines. induction H as [|l ls Hl Hls IH]; [intros []|].
    cbn [map List.concat]. intros Hin.
    apply in_app_or in Hin. destruct Hin as [Hin|Hin]; auto.
    apply in_app_or in Hin. destruct Hin as [Hin|[Hin|[]]]; [|discriminate].
    now apply no_newline_In in Hl.
Qed.

Lemma rstrip_newlines_line (body : pystr) :
  no_newline body ->
  rstrip_newlines (body ++ [ch_lf]) = body /\ rstrip_newlines body = body.
Proof.
  intros H. unfold rstrip_newlines.
  assert (F : lstrip_chars is_newline (rev body) = rev body).
  { apply no_newline_rev in H. destruct (rev body) as [|c r]; auto.
    apply no_newline_cons in H. destruct H as [H1 [H2 _]].
    cbn [lstrip_chars]. unfold is_newline.
    now rewrite (proj2 (N.eqb_neq _ _) H1), (proj2 (N.eqb_neq _ _) H2). }
  split.
  - rewrite rev_app_distr. cbn [rev app lstrip_chars].
    change (is_newline ch_lf) with true. cbn iota.
    now rewrite F, rev_involutive.
  - now rewrite F, rev_involutive.
Qed.

(** Every line read is a text without line break, followed or not by a line
    feed. *)
Lemma lines_from_shape (s cur : pystr) :
  ~ In ch_cr s -> no_newline cur ->
  Forall (fun line => exists body, no_newline body
                                   /\ (line = body ++ [ch_lf] \/ line = body))
    (lines_from cur s).
Proof.
  revert cur. induction s as [|c s IH]; intros cur Hcr Hcur.
  - cbn [lines_from]. destruct cur; constructor; auto.
    exists (rev (c :: cur)). split; [now apply no_newline_rev | now right].
  - cbn [lines_from]. destruct (N.eqb_spec c ch_lf) as [->|Hc].
    + constructor.
      * exists (rev cur). split; [now apply no_newline_rev | now left].
      * apply IH; [intros H; apply Hcr; now right | reflexivity].
    + apply IH; [intros H; apply Hcr; now right|].
      apply no_newline_cons. split; auto. split; auto.
      intros ->. apply Hcr. now left.
Qed.

Lemma env_lines_no_newline (env : option pystr) :
  Forall no_newline (env_lines_of env).
Proof.
  destruct env as [text|]; [|constructor]. unfold env_lines_of, readlines.
  apply Forall_map.
  eapply Forall_impl; [|apply (lines_from_shape _ (cur:=[]));
                        [apply translate_newlines_no_cr | reflexivity]].
  intros line [body [Hb [-> | ->]]];
    destruct (rstrip_newlines_line Hb) as [E1 E2]; congruence.
Qed.

Lemma rstrip_newlines_written (ls : list pystr) :
  Forall no_newline ls ->
  map rstrip_newlines (map (fun line => line ++ [ch_lf]) ls) = ls.
Proof.
  intros H. induction H as [|l ls Hl Hls IH]; auto. cbn [map].
  rewrite IH. now rewrite (proj1 (rstrip_newlines_line Hl)).
Qed.

(** ** The API key in the [.env] file *)

Section EnvFacts.
Context {U : UnicodeDB}.

(** What the loop of [save_api_key_to_env] keeps of a line. *)
Lemma scan_env_spec (api_key : pystr) (lines acc : list pystr) (found : bool) :
  scan_env api_key lines acc found
  = (acc ++ flat_map (fun o => if is_key_line o
                               then match api_key with
                                    | [] => []
                                    | _ => [OPENAI_API_KEY_eq ++ api_key]
                                    end
                               else [o])
             (map rstrip_newlines lines),
     found || existsb is_key_line (map rstrip_newlines lines)).
Proof.
  revert acc found. induction lines as [|line lines IH]; intros acc found.
  - cbn. now rewrite app_nil_r, orb_false_r.
  - cbn [scan_env map flat_map existsb]. fold (is_key_line (rstrip_newlines line)).
    destruct (is_key_line (rstrip_newlines line)).
    + destruct api_key as [|c k]; rewrite IH; cbn [orb app].
      * now rewrite orb_true_r.
      * now rewrite <- app_assoc, orb_true_r.
    + rewrite IH. cbn [orb]. now rewrite <- app_assoc.
Qed.

Lemma first_key_written (ls : list pystr) :
  isspace ch_lf = true ->
  first_key (map (fun line => line ++ [ch_lf]) ls) = first_key ls.
Proof.
  intros Hlf. induction ls as [|l ls IH]; auto.
  cbn [map first_key]. now rewrite (strip_app_space l ch_lf Hlf), IH.
Qed.

Lemma first_key_skip (l : pystr) (ls : list pystr) :
  is_key_line l = false -> first_key (l :: ls) = first_key ls.
Proof. unfold is_key_line. intros H. cbn [first_key]. now rewrite H. Qed.

Lemma first_key_found (key : pystr) (ls : list pystr) :
  env_chars -> first_key ((OPENAI_API_KEY_eq ++ key) :: ls) = Some (strip key).
Proof.
  intros H. cbn [first_key].
  pose proof (key_line_is_key key H) as K. unfold is_key_line in K. rewrite K.
  pose proof (key_line_value key H) as V.
  destruct (split_once_second ch_eq (strip (OPENAI_API_KEY_eq ++ key)));
    cbn [option_map] in V; congruence.
Qed.

Lemma first_key_replaced (c : char) (k : pystr) (origs tail : list pystr) :
  env_chars ->
  first_key (flat_map (fun o => if is_key_line o
                                then [OPENAI_API_KEY_eq ++ c :: k] else [o]) origs
             ++ tail)
  = if existsb is_key_line origs then Some (strip (c :: k)) else first_key tail.
Proof.
  intros H. induction origs as [|o origs IH]; auto.
  cbn [flat_map existsb]. destruct (is_key_line o) eqn:E; cbn [app orb].
  - now apply first_key_found.
  - now rewrite (first_key_skip o _ E), IH.
Qed.

Lemma first_key_none (ls : list pystr) :
  forallb (fun o => negb (is_key_line o)) ls = true -> first_key ls = None.
Proof.
  induction ls as [|l ls IH]; auto. cbn [forallb].
  intros H. apply andb_true_iff in H. destruct H as [Hl H].
  apply negb_true_iff in Hl. now rewrite (first_key_skip l ls Hl), IH.
Qed.

Lemma save_api_key_to_env_lines (api_key : pystr) (env : option pystr) :
  save_api_key_to_env api_key env = (Some (write_lines (saved_lines api_key env)), true).
Proof.
  unfold save_api_key_to_env, saved_lines, env_lines_of.
  destruct env as [text|].
  - rewrite scan_env_spec. cbn [app orb].
    destruct api_key as [|c k]; [now rewrite app_nil_r|].
    destruct (existsb is_key_line (map rstrip_newlines (readlines text)));
      [now rewrite app_nil_r | reflexivity].
  - destruct api_key; reflexivity.
Qed.

Lemma saved_lines_no_newline (api_key : pystr) (env : option pystr) :
  no_newline api_key -> Forall no_newline (saved_lines api_key env).
Proof.
  intros Hk.
  assert (K : no_newline (OPENAI_API_KEY_eq ++ api_key)).
  { apply no_newline_app. split; [reflexivity | exact Hk]. }
  unfold saved_lines. apply Forall_app. split.
  - apply Forall_flat_map.
    eapply Forall_impl; [|apply env_lines_no_newline].
    intros o Ho. destruct (is_key_line o); [|now constructor].
    destruct api_key; constructor; auto.
  - destruct api_key; [constructor|].
    destruct (existsb is_key_line (env_lines_of env)); constructor; auto.
Qed.

Lemma env_lines_of_saved (api_key : pystr) (env : option pystr) :
  no_newline api_key ->
  env_lines_of (fst (save_api_key_to_env api_key env)) = saved_lines api_key env.
Proof.
  intros Hk. rewrite save_api_key_to_env_lines. cbn [fst env_lines_of].
  rewrite readlines_write_lines by now apply saved_lines_no_newline.
  apply rstrip_newlines_written. now apply saved_lines_no_newline.
Qed.

End EnvFacts.

(** X15: a key saved with [save_api_key_to_env] is the one
    [load_api_key_from_env] reads afterwards, trimmed of surrounding
    whitespace, whatever the file held before (no file, no key line, one or
    several), for a key that is not empty and has no line break. *)
Theorem saved_key_is_loaded {U : UnicodeDB} (api_key : pystr) (env : option pystr) :
  env_chars -> api_key <> [] -> no_newline api_key ->
  load_api_key_from_env (fst (save_api_key_to_env api_key env))
  = Some (strip api_key).
Proof.
  intros H Hne Hk. rewrite save_api_key_to_env_lines.
  cbn [fst load_api_key_from_env].
  rewrite readlines_write_lines by now apply saved_lines_no_newline.
  rewrite first_key_written by apply H.
  unfold saved_lines. destruct api_key as [|c k]; [contradiction|].
  rewrite (first_key_replaced c k _ _ H).
  destruct (existsb is_key_line (env_lines_of env)); auto.
  now apply first_key_found.
Qed.

Lemma saved_key_is_loaded_witness :
  @env_chars latin_db
  /\ @load_api_key_from_env latin_db
       (fst (@save_api_key_to_env latin_db (lit " sk-new ") (Some example_env)))
     = Some (lit "sk-new").
Proof.
  assert (H : @env_chars latin_db) by (repeat split; reflexivity).
  split; [exact H|].
  apply (@saved_key_is_loaded latin_db (lit " sk-new ") (Some example_env) H);
    [discriminate | reflexivity].
Defined.

(** X16: saving the empty key removes the key: afterwards
    [load_api_key_from_env] finds none. *)
Theorem empty_key_removes {U : UnicodeDB} (env : option pystr) :
  isspace ch_lf = true ->
  load_api_key_from_env (fst (save_api_key_to_env [] env)) = None.
Proof.
  intros Hlf. rewrite save_api_key_to_env_lines.
  cbn [fst load_api_key_from_env].
  rewrite readlines_write_lines by (apply saved_lines_no_newline; reflexivity).
  rewrite first_key_written by exact Hlf.
  apply first_key_none. unfold saved_lines. rewrite app_nil_r.
  induction (env_lines_of env) as [|o l IH]; auto.
  cbn [flat_map]. destruct (is_key_line o) eqn:E; cbn [app forallb]; auto.
  now rewrite E, IH.
Qed.

Lemma empty_key_removes_witness :
  @isspace latin_db ch_lf = true
  /\ @load_api_key_from_env latin_db (Some example_env) = Some (lit "sk-old")
  /\ @load_api_key_from_env latin_db
       (fst (@save_api_key_to_env latin_db [] (Some example_env))) = None.
Proof.
  split; [reflexivity|]. split; [reflexivity|].
  apply (@empty_key_removes latin_db (Some example_env)). reflexivity.
Defined.

(** X17: [save_api_key_to_env] keeps every line of the file that does not set
    the key, in order and unchanged but for its line break; the lines that
    set the key all set the new key afterwards, and there is one when the
    new key is not empty. *)
Theorem other_lines_kept {U : UnicodeDB} (api_key : pystr) (env : option pystr) :
  env_chars -> no_newline api_key ->
  filter (fun o => negb (is_key_line o))
    (env_lines_of (fst (save_api_key_to_env api_key env)))
  = filter (fun o => negb (is_key_line o)) (env_lines_of env)
  /\ Forall (fun o => o = OPENAI_API_KEY_eq ++ api_key)
       (filter is_key_line (env_lines_of (fst (save_api_key_to_env api_key env))))
  /\ (api_key = []
      \/ In (OPENAI_API_KEY_eq ++ api_key)
           (env_lines_of (fst (save_api_key_to_env api_key env)))).
Proof.
  intros H Hk. rewrite (env_lines_of_saved _ Hk). unfold saved_lines.
  pose proof (key_line_is_key api_key H) as K.
  rewrite !filter_app. split; [|split].
  - replace (filter (fun o => negb (is_key_line o))
               match api_key with
               | [] => []
               | _ :: _ =>
                   if existsb is_key_line (env_lines_of env) then []
                   else [OPENAI_API_KEY_eq ++ api_key]
               end) with (@nil pystr).
    2:{ destruct api_key; auto.
        destruct (existsb is_key_line (env_lines_of env)); auto.
        cbn [filter]. now rewrite K. }
    rewrite app_nil_r.
    induction (env_lines_of env) as [|o l IH]; auto.
    cbn [flat_map filter]. rewrite filter_app, IH.
    destruct (is_key_line o) eqn:E; cbn [negb].
    + destruct api_key; cbn [filter app]; auto. now rewrite K.
    + cbn [filter app]. now rewrite E.
  - apply Forall_app. split.
    + induction (env_lines_of env) as [|o l IH]; [constructor|].
      cbn [flat_map]. rewrite filter_app. apply Forall_app. split; auto.
      destruct (is_key_line o) eqn:E.
      * destruct api_key; [constructor|]. cbn [filter]. rewrite K.
        now repeat constructor.
      * cbn [filter]. rewrite E. constructor.
    + destruct api_key; [constructor|].
      destruct (existsb is_key_line (env_lines_of env)); [constructor|].
      cbn [filter]. rewrite K. now repeat constructor.
  - destruct api_key as [|c k]; [now left|]. right.
    apply in_or_app.
    destruct (existsb is_key_line (env_lines_of env)) eqn:E.
    + left. apply existsb_exists in E. destruct E as [o [Ho Eo]].
      apply in_flat_map. exists o. split; auto. rewrite Eo. now left.
    + right. now left.
Qed.

Lemma other_lines_kept_witness :
  @env_chars latin_db
  /\ filter (fun o => negb (@is_key_line latin_db o))
       (env_lines_of (fst (@save_api_key_to_env latin_db (lit "sk-new")
                             (Some example_env))))
     = [lit "DEBUG=1"; lit "LANG=vi"].
Proof.
  assert (H : @env_chars latin_db) by (repeat split; reflexivity).
  split; [exact H|].
  destruct (@other_lines_kept latin_db (lit "sk-new") (Some example_env) H eq_refl)
    as [E _].
  rewrite E. reflexivity.
Defined.

(** ** The timeline *)


Lemma insert_sorted_perm (n : Z) (l : list Z) :
  Permutation (n :: l) (insert_sorted n l).
Proof.
  induction l as [|x l IH]; cbn [insert_sorted]; auto.
  destruct (n <? x); auto.
  eapply perm_trans; [apply perm_swap|]. now constructor.
Qed.

Lemma sorted_perm (l : list Z) : Permutation l (sorted l).
Proof.
  induction l as [|x l IH]; cbn [sorted fold_right]; auto.
  eapply perm_trans; [|apply insert_sorted_perm]. now constructor.
Qed.

Lemma insert_sorted_ordered (n : Z) (l : list Z) :
  StronglySorted Z.le l -> StronglySorted Z.le (insert_sorted n l).
Proof.
  induction l as [|x l IH]; intros H; cbn [insert_sorted].
  - repeat constructor.
  - inversion H as [|y l' Hl Hx]. subst.
    destruct (Z.ltb_spec n x).
    + constructor; auto. constructor; [lia|].
      eapply Forall_impl; [|exact Hx]. intros a Ha. cbn beta in Ha. lia.
    + constructor; auto.
      eapply Permutation_Forall; [apply insert_sorted_perm|].
      constructor; auto.
Qed.

Lemma sorted_ordered (l : list Z) : StronglySorted Z.le (sorted l).
Proof.
  induction l as [|x l IH]; cbn [sorted fold_right]; [constructor|].
  now apply insert_sorted_ordered.
Qed.

Lemma shorten_length (n : nat) (s : pystr) :
  (List.length (shorten n s) <= n + 3)%nat.
Proof.
  unfold shorten. rewrite length_app, length_firstn.
  destruct (n <? List.length s)%nat; cbn [List.length dots]; lia.
Qed.

Lemma chained_snoc (start : Z) (rows : list TimelineRow) (r : TimelineRow) :
  chained start rows -> tl_bat_dau r = last_day start rows ->
  chained start (rows ++ [r]).
Proof.
  unfold last_day. revert start. induction rows as [|x rows IH]; intros start.
  - cbn. auto.
  - cbn [chained app fold_left]. intros [Hx Hc] Hr. split; auto.
Qed.

Lemma last_day_snoc (start : Z) (rows : list TimelineRow) (r : TimelineRow) :
  last_day start (rows ++ [r]) = tl_ket_thuc r.
Proof. unfold last_day. now rewrite fold_left_app. Qed.

Lemma timeline_loop_spec (steps : Steps) (step_days : dict Z Z) (keys : list Z)
      (acc : list TimelineRow) (cum : Z) :
  (forall k, In k keys -> In k (dict_keys steps)) ->
  chained 0 acc -> last_day 0 acc = cum ->
  exists rows,
    timeline_loop steps step_days keys acc cum = Some (acc ++ rows)
    /\ chained 0 (acc ++ rows)
    /\ last_day 0 (acc ++ rows) = cum + sum (map (days_of step_days) keys)
    /\ map tl_buoc rows = map (fun n => Buoc_ ++ str_of_int n) keys
    /\ map tl_thoi_gian rows = map (days_of step_days) keys
    /\ Forall (fun r => tl_ket_thuc r = tl_bat_dau r + tl_thoi_gian r
                        /\ (List.length (tl_noi_dung r) <= 53)%nat) rows.
Proof.
  revert acc cum. induction keys as [|k keys IH]; intros acc cum Hin Hc Hl.
  - exists []. rewrite app_nil_r. cbn. repeat split; auto; lia.
  - cbn [timeline_loop].
    assert (Hk : In k (dict_keys steps)) by (apply Hin; now left).
    apply (dict_get_In Z.eqb Z.eqb_eq) in Hk. unfold dict_mem in Hk.
    destruct (dict_get Z.eqb k steps) as [sd|]; [|discriminate].
    set (r := {| tl_buoc := Buoc_ ++ str_of_int k;
                 tl_noi_dung := shorten 50 (title sd);
                 tl_bat_dau := cum;
                 tl_ket_thuc := cum + days_of step_days k;
                 tl_thoi_gian := days_of step_days k |}).
    destruct (IH (acc ++ [r]) (cum + days_of step_days k))
      as [rows [E [C [L [B [D F]]]]]].
    + intros k' Hk'. apply Hin. now right.
    + apply chained_snoc; [exact Hc | now rewrite Hl].
    + apply last_day_snoc.
    + exists (r :: rows). rewrite <- app_assoc in E, C, L. cbn [app] in E, C, L.
      split; [exact E|]. split; [exact C|]. split.
      * rewrite L. cbn [map sum fold_right]. unfold sum. lia.
      * cbn [map]. rewrite B, D. repeat split; auto.
        constructor; auto. split; [reflexivity | apply (shorten_length 50)].
Qed.

